(** * Smart order routing coordination: the [useSor] composable

    A shallow embedding of the trade orchestrator ([useSor]) of the
    front end: quote recomputation ([handleAmountChange]), post-quote
    refinement ([updateTradeAmounts]), price impact ([calcPriceImpact]),
    slippage limits ([getMaxIn], [getMinOut], [getQuote]) and execution
    ([trade], [txHandler]).

    Layout: the JavaScript values the composable computes with (numbers,
    decimal strings, big integers), the reactive state, a small program
    monad with its two semantics (straight-line and interleaved), the
    functions of the composable, and then the properties.

    Conventions.
    - A JavaScript [number] is a binary64 value ([spec_float]); a
      [BigNumber] is an integer; a string is a [string].
    - The refs of the composable and the module-level [state] are one
      record, [Sor]; a function of the composable is a program that reads
      and writes it, calls collaborators and is suspended at each [await].
    - Collaborators that only answer questions (token registry, prices,
      formatting, configuration) are a [World]; those that act (routing
      engine, wrap adapter, chain, telemetry) are calls answered by an
      [oracle], with a value or with a thrown error.
    - Logging to the console is left out; [onMounted], [initSor] and
      [fetchPools] only start the functions modelled here. *)

From Stdlib Require Import ZArith List String Ascii Bool Lia.
From Stdlib Require Import Floats.SpecFloat.
From Stdlib Require Import Numbers.DecimalString.
Import ListNotations.

Local Open Scope string_scope.
Local Open Scope Z_scope.

(** ** Errors and fallible computations *)

(** A thrown JavaScript [Error]; only its [message] is ever observed. *)
Record JsError : Type := mkError { message : string }.

Inductive fallible (A : Type) : Type :=
| Ok (a : A)
| Err (e : JsError).
Arguments Ok {A} a.
Arguments Err {A} e.

Definition rbind {A B} (r : fallible A) (f : A -> fallible B) : fallible B :=
  match r with
  | Ok a => f a
  | Err e => Err e
  end.

Definition throwError {A} (msg : string) : fallible A := Err (mkError msg).

(** ** Characters and digit strings *)

Module Chars.

Definition is_digit (c : ascii) : bool :=
  let n := nat_of_ascii c in (48 <=? n)%nat && (n <=? 57)%nat.

Definition digit_value (c : ascii) : Z := Z.of_nat (nat_of_ascii c) - 48.

(** Value of a hexadecimal digit, when [c] is one. *)
Definition hex_value (c : ascii) : option Z :=
  let n := nat_of_ascii c in
  if (48 <=? n)%nat && (n <=? 57)%nat then Some (Z.of_nat n - 48)
  else if (97 <=? n)%nat && (n <=? 102)%nat then Some (Z.of_nat n - 87)
  else if (65 <=? n)%nat && (n <=? 70)%nat then Some (Z.of_nat n - 55)
  else None.

(** Tab, line feed, vertical tab, form feed, carriage return, space. *)
Definition is_space (c : ascii) : bool :=
  let n := nat_of_ascii c in
  ((9 <=? n)%nat && (n <=? 13)%nat) || (n =? 32)%nat.

Definition all_digits (l : list ascii) : bool := forallb is_digit l.

(** Reads a digit list in radix [r]; [None] on a foreign character. *)
Fixpoint value_in_radix (r : Z) (acc : Z) (l : list ascii) : option Z :=
  match l with
  | [] => Some acc
  | c :: l' =>
      match hex_value c with
      | Some d => if d <? r then value_in_radix r (acc * r + d) l' else None
      | None => None
      end
  end.

(** Decimal value of a list of digits (0 for the empty list). *)
Definition decimal_value (l : list ascii) : Z :=
  fold_left (fun acc c => acc * 10 + digit_value c) l 0.

(** Decimal digits of a natural number, without leading zeros
    (["0"] for zero), as [BigNumber.toString] prints them. *)
Definition digits_of_Z (n : Z) : string :=
  NilZero.string_of_uint (N.to_uint (Z.to_N n)).

Fixpoint zeros (n : nat) : string :=
  match n with
  | O => ""
  | S n' => String "0" (zeros n')
  end.

Fixpoint drop_while {A} (p : A -> bool) (l : list A) : list A :=
  match l with
  | [] => []
  | c :: l' => if p c then drop_while p l' else l
  end.

Definition trim (l : list ascii) : list ascii :=
  rev (drop_while is_space (rev (drop_while is_space l))).

(** Splits at the first character satisfying [p] (which is dropped);
    the second component is [None] when there is none. *)
Fixpoint split_at {A} (p : A -> bool) (l : list A) : list A * option (list A) :=
  match l with
  | [] => ([], None)
  | c :: l' =>
      if p c then ([], Some l')
      else let '(a, b) := split_at p l' in (c :: a, b)
  end.

Definition is_char (c d : ascii) : bool := Ascii.eqb c d.

End Chars.

(** ** JavaScript numbers

    A [number] is an IEEE 754 binary64 value; the canonical members of
    [spec_float] at precision 53.  Conversions from decimal numerals round
    to nearest, ties to even, as [Number(...)] does. *)

Module JS.

Definition number : Type := spec_float.

Definition prec : Z := 53.
Definition emax : Z := 1024.

Definition zero : number := S754_zero false.
Definition NaN : number := S754_nan.

(** The number nearest to the rational [n / d]. *)
Definition of_ratio (neg : bool) (n d : positive) : number :=
  SFdiv prec emax (S754_finite neg n 0) (S754_finite false d 0).

(** The number nearest to [m * 10 ^ e] (with the sign [neg]). *)
Definition of_decimal (neg : bool) (m : Z) (e : Z) : number :=
  match m with
  | Zpos p =>
      if 0 <=? e then of_ratio neg (p * Z.to_pos (10 ^ e)) 1
      else of_ratio neg p (Z.to_pos (10 ^ (- e)))
  | _ => S754_zero neg
  end.

Definition of_Z (z : Z) : number := of_decimal (z <? 0) (Z.abs z) 0.

Definition add (x y : number) : number := SFadd prec emax x y.
Definition div (x y : number) : number := SFdiv prec emax x y.

(** [x >= y] *)
Definition geb (x y : number) : bool := SFleb y x.
(** [x === y] on numbers *)
Definition eqb (x y : number) : bool := SFeqb x y.

(** [Math.max(x, y)]: NaN if either is; +0 is larger than -0. *)
Definition max (x y : number) : number :=
  match SFcompare x y with
  | None => S754_nan
  | Some Lt => y
  | Some Gt => x
  | Some Eq => match x with S754_zero true => y | _ => x end
  end.

(** *** [Number(string)] *)

Import Chars.

Definition Infinity_chars : list ascii := list_ascii_of_string "Infinity".

Definition is_exp_mark (c : ascii) : bool := is_char c "e" || is_char c "E".
Definition is_dot (c : ascii) : bool := is_char c ".".

(** An optionally signed run of digits, as after the exponent mark. *)
Definition signed_integer (l : list ascii) : option Z :=
  let '(neg, ds) :=
    match l with
    | c :: l' =>
        if is_char c "-" then (true, l')
        else if is_char c "+" then (false, l') else (false, l)
    | [] => (false, l)
    end in
  match ds with
  | [] => None
  | _ => if all_digits ds
         then Some (if neg then - decimal_value ds else decimal_value ds)
         else None
  end.

(** [digits [. digits] [e exponent]] or [. digits [e exponent]] *)
Definition unsigned_decimal (neg : bool) (l : list ascii) : number :=
  let '(mant, expo) := split_at is_exp_mark l in
  let '(whole, fraction) := split_at is_dot mant in
  let fr := match fraction with Some f => f | None => [] end in
  let e := match expo with
           | None => Some 0
           | Some x => signed_integer x
           end in
  match whole, fr with
  | [], [] => NaN
  | _, _ =>
      if all_digits whole && all_digits fr then
        match e with
        | Some e =>
            of_decimal neg (decimal_value (whole ++ fr))
              (e - Z.of_nat (List.length fr))
        | None => NaN
        end
      else NaN
  end.

Definition radix_literal (r : Z) (ds : list ascii) : number :=
  match ds with
  | [] => NaN
  | _ => match value_in_radix r 0 ds with
         | Some v => of_Z v
         | None => NaN
         end
  end.

Definition list_eqb (a b : list ascii) : bool :=
  String.eqb (string_of_list_ascii a) (string_of_list_ascii b).

Definition str_decimal (neg : bool) (l : list ascii) : number :=
  if list_eqb l Infinity_chars then S754_infinity neg
  else unsigned_decimal neg l.

(** [Number(s)]: white space is trimmed, the empty string is [0], radix
    prefixes are unsigned, anything unreadable is [NaN]. *)
Definition Number (s : string) : number :=
  match trim (list_ascii_of_string s) with
  | [] => zero
  | c :: rest =>
      if is_char c "-" then str_decimal true rest
      else if is_char c "+" then str_decimal false rest
      else
        match rest with
        | p :: ds =>
            if is_char c "0" && (is_char p "x" || is_char p "X")
            then radix_literal 16 ds
            else if is_char c "0" && (is_char p "o" || is_char p "O")
            then radix_literal 8 ds
            else if is_char c "0" && (is_char p "b" || is_char p "B")
            then radix_literal 2 ds
            else str_decimal false (c :: rest)
        | [] => str_decimal false (c :: rest)
        end
  end.

(** *** Printing: [String(x)] and [x.toFixed(f)] *)

(** [x * 10 ^ (- q)] for [x = num / den], as a fraction. *)
Definition scaled_fraction (num den : Z) (q : Z) : Z * Z :=
  if 0 <=? q then (num, den * 10 ^ q) else (num * 10 ^ (- q), den).

(** The positive finite number [m * 2 ^ e] as a fraction. *)
Definition fraction_of (m : positive) (e : Z) : Z * Z :=
  if 0 <=? e then (Zpos m * 2 ^ e, 1) else (Zpos m, 2 ^ (- e)).

(** Least [n], searched upwards from [n], with [num / den < 10 ^ n]. *)
Fixpoint decade (fuel : nat) (num den : Z) (n : Z) : Z :=
  match fuel with
  | O => n
  | S fuel' =>
      let '(a, b) := scaled_fraction num den n in
      if a <? b then n else decade fuel' num den (n + 1)
  end.

(** The shortest digit string for [x = m * 2 ^ e > 0]: the [k]-digit
    candidates on either side of [x] at the decade [n0], the one that
    reads back as [x] (the nearer one, the even one on a tie). *)
Definition candidate (x : number) (num den : Z) (n0 : Z) (k : Z)
  : option Z :=
  let q := n0 - k in
  let '(a, b) := scaled_fraction num den q in
  let lo := a / b in
  let hi := lo + 1 in
  let r := a mod b in
  let ok_lo := (0 <? lo) && SFeqb (of_decimal false lo q) x in
  let ok_hi := SFeqb (of_decimal false hi q) x in
  match ok_lo, ok_hi with
  | true, true =>
      match 2 * r ?= b with
      | Lt => Some lo
      | Gt => Some hi
      | Eq => Some (if Z.even lo then lo else hi)
      end
  | true, false => Some lo
  | false, true => Some hi
  | false, false => None
  end.

(** Tries [k = k0, k0 + 1, ...]; returns the digits [s], their count
    [k] and the decimal exponent [n], so that the printed value is
    [s * 10 ^ (n - k)]. *)
Fixpoint shortest (fuel : nat) (x : number) (num den : Z) (n0 : Z) (k : Z)
  : Z * Z * Z :=
  match fuel with
  | O => (0, 1, 1)
  | S fuel' =>
      match candidate x num den n0 k with
      | Some s => if s =? 10 ^ k then (1, 1, n0 + 1) else (s, k, n0)
      | None => shortest fuel' x num den n0 (k + 1)
      end
  end.

Definition digits_of (m : positive) (e : Z) : Z * Z * Z :=
  let '(num, den) := fraction_of m e in
  let n0 := decade 700 num den (-330) in
  shortest 17 (S754_finite false m e) num den n0 1.

Definition take (n : Z) (s : string) : string :=
  String.substring 0 (Z.to_nat n) s.
Definition drop (n : Z) (s : string) : string :=
  String.substring (Z.to_nat n) (String.length s - Z.to_nat n) s.

(** [Number::toString] in radix 10, for a positive finite number. *)
Definition toString_pos (m : positive) (e : Z) : string :=
  let '(s, k, n) := digits_of m e in
  let ds := digits_of_Z s in
  if (k <=? n) && (n <=? 21) then ds ++ zeros (Z.to_nat (n - k))
  else if (0 <? n) && (n <=? 21) then take n ds ++ "." ++ drop n ds
  else if (-6 <? n) && (n <=? 0) then "0." ++ zeros (Z.to_nat (- n)) ++ ds
  else
    let ex := (if n - 1 <? 0 then "-" else "+") ++ digits_of_Z (Z.abs (n - 1)) in
    if k =? 1 then ds ++ "e" ++ ex
    else take 1 ds ++ "." ++ drop 1 ds ++ "e" ++ ex.

(** [String(x)], [x.toString()] *)
Definition toString (x : number) : string :=
  match x with
  | S754_nan => "NaN"
  | S754_zero _ => "0"
  | S754_infinity s => if s then "-Infinity" else "Infinity"
  | S754_finite s m e =>
      (if s then "-" else "") ++ toString_pos m e
  end.

(** The digits of [n] with a point before the last [f] of them. *)
Definition fixed_point_string (n : Z) (f : nat) : string :=
  match f with
  | O => digits_of_Z n
  | _ =>
      let ds := digits_of_Z n in
      let padded := zeros (S f - String.length ds) ++ ds in
      let w := Z.of_nat (String.length padded - f) in
      take w padded ++ "." ++ drop w padded
  end.

(** [x.toFixed(f)]: the nearest multiple of [10 ^ - f], the larger
    one on a tie; at [10 ^ 21] and above, as [String(x)]. *)
Definition toFixed (x : number) (f : nat) : string :=
  match x with
  | S754_finite s m e =>
      let '(num, den) := fraction_of m e in
      if 10 ^ 21 * den <=? num then toString x
      else
        let n := (2 * num * 10 ^ Z.of_nat f + den) / (2 * den) in
        (if s then "-" else "") ++ fixed_point_string n f
  | S754_zero _ => fixed_point_string 0 f
  | _ => toString x
  end.

End JS.

(** ** Big integers and fixed-point strings (the ethers collaborators)

    A [BigNumber] is an unbounded integer.  [parseFixed] reads a decimal
    string at a number of decimals and [formatFixed] prints one; a call
    that leaves the decimals undefined reads 0 for [parseFixed] and
    [formatFixed] and 18 for [parseUnits] and [formatUnits]. *)

Module BigNumber.

Import Chars.

Definition t : Type := Z.

Definition Zero : t := 0.
(** [WeiPerEther] *)
Definition ONE : t := 10 ^ 18.

Definition mul (a b : t) : t := a * b.
Definition add (a b : t) : t := a + b.
Definition sub (a b : t) : t := a - b.
Definition abs (a : t) : t := Z.abs a.
Definition gt (a b : t) : bool := b <? a.
Definition isZero (a : t) : bool := a =? 0.

(** Division truncates towards zero and throws on a zero divisor. *)
Definition div (a b : t) : fallible t :=
  if isZero b then throwError "division-by-zero" else Ok (Z.quot a b).

(** [BigNumber.from(10).pow(d)]; an undefined exponent is not a
    [BigNumber] value. *)
Definition pow10 (d : option nat) : fallible t :=
  match d with
  | Some d => Ok (10 ^ Z.of_nat d)
  | None => throwError "invalid BigNumber value"
  end.

(** [BigNumber.from(x)] for an array element [x]: a decimal or
    hexadecimal integer string; [undefined] is not a value. *)
Definition from (x : option string) : fallible t :=
  match x with
  | None => throwError "invalid BigNumber value"
  | Some s =>
      let l := list_ascii_of_string s in
      let '(neg, body) :=
        match l with
        | c :: l' => if is_char c "-" then (true, l') else (false, l)
        | [] => (false, l)
        end in
      let sign (v : Z) := if neg then - v else v in
      let decimal :=
        match body with
        | [] => throwError "invalid BigNumber string"
        | _ => if all_digits body then Ok (sign (decimal_value body))
               else throwError "invalid BigNumber string"
        end in
      match body with
      | c :: p :: (_ :: _) as ds =>
          if is_char c "0" && (is_char p "x" || is_char p "X") then
            match value_in_radix 16 0 ds with
            | Some v => Ok (sign v)
            | None => throwError "invalid BigNumber string"
            end
          else decimal
      | _ => decimal
      end
  end.

End BigNumber.

Module Fixed.

Import Chars.

Definition is_dot (c : ascii) : bool := is_char c ".".

(** Drops the zeros at the end of a digit list. *)
Definition strip_trailing_zeros (l : list ascii) : list ascii :=
  rev (drop_while (fun c => is_char c "0") (rev l)).

Definition parse_at (value : string) (decimals : nat) : fallible Z :=
  let l := list_ascii_of_string value in
  let '(negative, body) :=
    match l with
    | c :: l' => if is_char c "-" then (true, l') else (false, l)
    | [] => (false, l)
    end in
  match body with
  | [] => throwError "invalid decimal value"
  | _ =>
      if negb (forallb (fun c => is_digit c || is_dot c) body)
      then throwError "invalid decimal value"
      else
        let '(whole, rest) := split_at is_dot body in
        match whole, rest with
        | [], Some [] => throwError "missing value"
        | _, _ =>
            let fraction := match rest with Some f => f | None => [] end in
            if existsb is_dot fraction
            then throwError "too many decimal points"
            else
              let fraction := strip_trailing_zeros fraction in
              if (decimals <? List.length fraction)%nat
              then throwError "fractional component exceeds decimals"
              else
                let pad := Z.of_nat (decimals - List.length fraction) in
                let wei := decimal_value whole * 10 ^ Z.of_nat decimals
                           + decimal_value fraction * 10 ^ pad in
                Ok (if negative then - wei else wei)
        end
  end.

Definition format_at (value : Z) (decimals : nat) : string :=
  let multiplier := 10 ^ Z.of_nat decimals in
  let negative := value <? 0 in
  let v := Z.abs value in
  let fraction := digits_of_Z (v mod multiplier) in
  let padded :=
    list_ascii_of_string
      (zeros (decimals - String.length fraction) ++ fraction) in
  let fraction :=
    match strip_trailing_zeros padded with
    | [] => "0"
    | f => string_of_list_ascii f
    end in
  let whole := digits_of_Z (v / multiplier) in
  let body := match decimals with
              | O => whole
              | _ => whole ++ "." ++ fraction
              end in
  if negative then "-" ++ body else body.

Definition or_default (d : option nat) (dflt : nat) : nat :=
  match d with Some n => n | None => dflt end.

Definition parseFixed (value : string) (decimals : option nat) : fallible Z :=
  parse_at value (or_default decimals 0).
Definition formatFixed (value : Z) (decimals : option nat) : string :=
  format_at value (or_default decimals 0).
Definition parseUnits (value : string) (decimals : option nat) : fallible Z :=
  parse_at value (or_default decimals 18).
Definition formatUnits (value : Z) (decimals : option nat) : string :=
  format_at value (or_default decimals 18).

End Fixed.

(** ** Data model *)

(** [WrapType] of the wrapper module. *)
Inductive WrapType : Type := NonWrap | Wrap | Unwrap.

Definition WrapType_eqb (a b : WrapType) : bool :=
  match a, b with
  | NonWrap, NonWrap | Wrap, Wrap | Unwrap, Unwrap => true
  | _, _ => false
  end.

(** [SwapType] / [SwapTypes] of the SDK. *)
Inductive SwapType : Type := SwapExactIn | SwapExactOut.

Record TokenInfo : Type := mkToken {
  address : string;
  decimals : nat;
  symbol : string
}.

(** One hop of a batch swap. *)
Record SwapStep : Type := mkSwapStep {
  poolId : string;
  assetInIndex : nat;
  assetOutIndex : nat;
  amount : string
}.

Record Pool : Type := mkPool { pool_id : string }.

(** The route object ([SorReturn.result]).  The composable compares two
    of them with [!==]; [oid] is the identity of the object, and two
    objects are the same one exactly when their [oid]s agree. *)
Record SwapInfo : Type := mkSwapInfo {
  oid : nat;
  tokenAddresses : list string;
  swaps : list SwapStep
}.

Definition same_object (a b : SwapInfo) : bool := Nat.eqb (oid a) (oid b).

Record SorReturn : Type := mkSorReturn {
  hasSwaps : bool;
  sr_tokenIn : string;
  sr_tokenOut : string;
  returnDecimals : nat;
  returnAmount : Z;
  marketSpNormalised : string;
  result : SwapInfo
}.

Definition set_hasSwaps (b : bool) (r : SorReturn) : SorReturn :=
  mkSorReturn b (sr_tokenIn r) (sr_tokenOut r) (returnDecimals r)
    (returnAmount r) (marketSpNormalised r) (result r).

Definition set_returnAmount (a : Z) (r : SorReturn) : SorReturn :=
  mkSorReturn (hasSwaps r) (sr_tokenIn r) (sr_tokenOut r) (returnDecimals r)
    a (marketSpNormalised r) (result r).

(** The value [sorReturn] is initialised with. *)
Definition initialSorReturn : SorReturn :=
  mkSorReturn false "" "" 18 BigNumber.Zero "0" (mkSwapInfo 0 [] []).

Record TradeQuote : Type := mkTradeQuote {
  feeAmountInToken : string;
  feeAmountOutToken : string;
  maximumInAmount : Z;
  minimumOutAmount : Z
}.

Record TransactionResponse : Type := mkTx { hash : string }.

Inductive TransactionAction : Type := ActWrap | ActUnwrap | ActTrade.

(** Options passed to [fNum2]. *)
Record NumberFormat : Type := mkFormat {
  preset : string;
  maximumSignificantDigits : option nat;
  useGrouping : option bool;
  fixedFormat : option bool
}.

(** ** The reactive state

    The refs the composable receives ([exactIn] ... [slippageBufferRate]),
    the refs it creates ([pools] ... [poolsLoading]), whether [initSor]
    has built the manager, and the module-level [state]
    ([highPriceImpact], [submissionError]).  [tokenInAmountScaled] and
    [tokenOutAmountScaled] are optional: [None] when the caller did not
    supply them. *)
Record Sor : Type := mkSor {
  exactIn : bool;
  tokenInAddressInput : string;
  tokenInAmountInput : string;
  tokenOutAddressInput : string;
  tokenOutAmountInput : string;
  wrapType : WrapType;
  tokenInAmountScaled : option Z;
  tokenOutAmountScaled : option Z;
  tokenIn : TokenInfo;
  tokenOut : TokenInfo;
  slippageBufferRate : JS.number;
  sorManager : bool;
  pools : list Pool;
  sorReturn : SorReturn;
  trading : bool;
  confirming : bool;
  priceImpact : JS.number;
  latestTxHash : string;
  poolsLoading : bool;
  highPriceImpact : bool;
  submissionError : option string
}.

Definition set_tokenInAmountInput (v : string) (s : Sor) : Sor :=
  mkSor (exactIn s) (tokenInAddressInput s) v (tokenOutAddressInput s)
    (tokenOutAmountInput s) (wrapType s) (tokenInAmountScaled s)
    (tokenOutAmountScaled s) (tokenIn s) (tokenOut s) (slippageBufferRate s)
    (sorManager s) (pools s) (sorReturn s) (trading s) (confirming s)
    (priceImpact s) (latestTxHash s) (poolsLoading s) (highPriceImpact s)
    (submissionError s).

Definition set_tokenOutAmountInput (v : string) (s : Sor) : Sor :=
  mkSor (exactIn s) (tokenInAddressInput s) (tokenInAmountInput s)
    (tokenOutAddressInput s) v (wrapType s) (tokenInAmountScaled s)
    (tokenOutAmountScaled s) (tokenIn s) (tokenOut s) (slippageBufferRate s)
    (sorManager s) (pools s) (sorReturn s) (trading s) (confirming s)
    (priceImpact s) (latestTxHash s) (poolsLoading s) (highPriceImpact s)
    (submissionError s).

Definition set_pools (v : list Pool) (s : Sor) : Sor :=
  mkSor (exactIn s) (tokenInAddressInput s) (tokenInAmountInput s)
    (tokenOutAddressInput s) (tokenOutAmountInput s) (wrapType s)
    (tokenInAmountScaled s) (tokenOutAmountScaled s) (tokenIn s) (tokenOut s)
    (slippageBufferRate s) (sorManager s) v (sorReturn s) (trading s)
    (confirming s) (priceImpact s) (latestTxHash s) (poolsLoading s)
    (highPriceImpact s) (submissionError s).

Definition set_sorReturn (v : SorReturn) (s : Sor) : Sor :=
  mkSor (exactIn s) (tokenInAddressInput s) (tokenInAmountInput s)
    (tokenOutAddressInput s) (tokenOutAmountInput s) (wrapType s)
    (tokenInAmountScaled s) (tokenOutAmountScaled s) (tokenIn s) (tokenOut s)
    (slippageBufferRate s) (sorManager s) (pools s) v (trading s)
    (confirming s) (priceImpact s) (latestTxHash s) (poolsLoading s)
    (highPriceImpact s) (submissionError s).

Definition set_trading (v : bool) (s : Sor) : Sor :=
  mkSor (exactIn s) (tokenInAddressInput s) (tokenInAmountInput s)
    (tokenOutAddressInput s) (tokenOutAmountInput s) (wrapType s)
    (tokenInAmountScaled s) (tokenOutAmountScaled s) (tokenIn s) (tokenOut s)
    (slippageBufferRate s) (sorManager s) (pools s) (sorReturn s) v
    (confirming s) (priceImpact s) (latestTxHash s) (poolsLoading s)
    (highPriceImpact s) (submissionError s).

Definition set_confirming (v : bool) (s : Sor) : Sor :=
  mkSor (exactIn s) (tokenInAddressInput s) (tokenInAmountInput s)
    (tokenOutAddressInput s) (tokenOutAmountInput s) (wrapType s)
    (tokenInAmountScaled s) (tokenOutAmountScaled s) (tokenIn s) (tokenOut s)
    (slippageBufferRate s) (sorManager s) (pools s) (sorReturn s) (trading s)
    v (priceImpact s) (latestTxHash s) (poolsLoading s)
    (highPriceImpact s) (submissionError s).

Definition set_priceImpact (v : JS.number) (s : Sor) : Sor :=
  mkSor (exactIn s) (tokenInAddressInput s) (tokenInAmountInput s)
    (tokenOutAddressInput s) (tokenOutAmountInput s) (wrapType s)
    (tokenInAmountScaled s) (tokenOutAmountScaled s) (tokenIn s) (tokenOut s)
    (slippageBufferRate s) (sorManager s) (pools s) (sorReturn s) (trading s)
    (confirming s) v (latestTxHash s) (poolsLoading s)
    (highPriceImpact s) (submissionError s).

Definition set_latestTxHash (v : string) (s : Sor) : Sor :=
  mkSor (exactIn s) (tokenInAddressInput s) (tokenInAmountInput s)
    (tokenOutAddressInput s) (tokenOutAmountInput s) (wrapType s)
    (tokenInAmountScaled s) (tokenOutAmountScaled s) (tokenIn s) (tokenOut s)
    (slippageBufferRate s) (sorManager s) (pools s) (sorReturn s) (trading s)
    (confirming s) (priceImpact s) v (poolsLoading s)
    (highPriceImpact s) (submissionError s).

Definition set_highPriceImpact (v : bool) (s : Sor) : Sor :=
  mkSor (exactIn s) (tokenInAddressInput s) (tokenInAmountInput s)
    (tokenOutAddressInput s) (tokenOutAmountInput s) (wrapType s)
    (tokenInAmountScaled s) (tokenOutAmountScaled s) (tokenIn s) (tokenOut s)
    (slippageBufferRate s) (sorManager s) (pools s) (sorReturn s) (trading s)
    (confirming s) (priceImpact s) (latestTxHash s) (poolsLoading s)
    v (submissionError s).

Definition set_submissionError (v : option string) (s : Sor) : Sor :=
  mkSor (exactIn s) (tokenInAddressInput s) (tokenInAmountInput s)
    (tokenOutAddressInput s) (tokenOutAmountInput s) (wrapType s)
    (tokenInAmountScaled s) (tokenOutAmountScaled s) (tokenIn s) (tokenOut s)
    (slippageBufferRate s) (sorManager s) (pools s) (sorReturn s) (trading s)
    (confirming s) (priceImpact s) (latestTxHash s) (poolsLoading s)
    (highPriceImpact s) v.

(** ** Collaborators

    What the composable reads from the rest of the application and does
    not define itself: the token registry and prices, the number
    formatter, translations, address helpers and network configuration. *)
Record World : Type := mkWorld {
  getToken : string -> option TokenInfo;
  priceFor : string -> JS.number;
  isMainnet : bool;
  fNum2 : string -> NumberFormat -> string;
  FNumFormats_token : NumberFormat;
  (** [t('transactionSummary.wrapUnwrap', [a, b, c])] *)
  t_wrapUnwrap : string -> string -> string -> string;
  (** [toFiat(amount, address)] *)
  toFiat : string -> string -> string;
  (** [bnum(v).times(100).toNumber()] *)
  timesHundred : string -> JS.number;
  isStEthAddress : string -> bool;
  isSameAddress : string -> string -> bool;
  NATIVE_ASSET_ADDRESS : string;
  (** [appNetworkConfig.key], [.nativeAsset.address], [.addresses.wstETH] *)
  appNetwork_key : string;
  appNetwork_nativeAsset : string;
  appNetwork_wstETH : string;
  (** [configService.network.addresses.wstETH] *)
  config_wstETH : string
}.

(** [AddressZero] *)
Definition AddressZero : string := "0x0000000000000000000000000000000000000000".

Inductive Goal : Type :=
| ClickSwap | BalancerSwap | BalancerSwapMainnet | Swapped.

(** What [txHandler] hands to [addTransaction]. *)
Record TransactionDetails : Type := mkDetails {
  d_tokenIn : TokenInfo;
  d_tokenOut : TokenInfo;
  d_tokenInAddress : string;
  d_tokenOutAddress : string;
  d_tokenInAmount : string;
  d_tokenOutAmount : string;
  d_exactIn : bool;
  d_quote : TradeQuote;
  d_priceImpact : JS.number;
  d_slippageBufferRate : JS.number
}.

Record NewTransaction : Type := mkNewTransaction {
  tx_id : string;
  tx_type : string;
  tx_action : TransactionAction;
  tx_summary : string;
  tx_details : TransactionDetails
}.

(** ** Calls on collaborators

    The first group is awaited: the caller is suspended until the promise
    settles.  The second group answers at once. *)
Inductive call : Type :=
| GetWrapOutput (wrapper : string) (wt : WrapType) (wrapAmount : Z)
| SetCostOutputToken (token : string) (tokenDecimals : option nat) (price : string)
| GetBestSwap (tIn tOut : string) (dIn dOut : option nat) (st : SwapType) (swapAmount : Z)
| ConvertStEthWrap (stAmount : Z) (isWrap : bool)
| QueryBatchSwap (kind : SwapType) (steps : list SwapStep) (assets : list string)
| WrapTx (network : string) (wrapper : string) (txAmount : Z)
| UnwrapTx (network : string) (wrapper : string) (txAmount : Z)
| SwapIn (sr : SorReturn) (amountIn : Z) (minAmountOut : Z)
| SwapOut (sr : SorReturn) (maxAmountIn : Z) (amountOut : Z)
| HasPoolData
| SelectedPools
| TrackGoal (g : Goal) (v : option JS.number)
| CaptureException (e : JsError)
| AddTransaction (t : NewTransaction)
| TxListener (tx : TransactionResponse)
| SuccessCallback.

Definition resp (c : call) : Type :=
  match c with
  | GetWrapOutput _ _ _ => Z
  | GetBestSwap _ _ _ _ _ _ => SorReturn
  | ConvertStEthWrap _ _ => Z
  | QueryBatchSwap _ _ _ => list string
  | WrapTx _ _ _ | UnwrapTx _ _ _ | SwapIn _ _ _ | SwapOut _ _ _ =>
      TransactionResponse
  | HasPoolData => bool
  | SelectedPools => list Pool
  | _ => unit
  end.

Definition awaited (c : call) : bool :=
  match c with
  | GetWrapOutput _ _ _ | SetCostOutputToken _ _ _ | GetBestSwap _ _ _ _ _ _
  | ConvertStEthWrap _ _ | QueryBatchSwap _ _ _   | WrapTx _ _ _ | UnwrapTx _ _ _ | SwapIn _ _ _ | SwapOut _ _ _ => true
  | _ => false
  end.

(** The routing engine's quote, [sorManager.getBestSwap]. *)
Definition is_getBestSwap (c : call) : bool :=
  match c with GetBestSwap _ _ _ _ _ _ => true | _ => false end.

(** A submission to the chain: [wrap], [unwrap], [swapIn], [swapOut]. *)
Definition is_submission (c : call) : bool :=
  match c with
  | WrapTx _ _ _ | UnwrapTx _ _ _ | SwapIn _ _ _ | SwapOut _ _ _ => true
  | _ => false
  end.

(** How the collaborators answer: a value, or a thrown error (a rejected
    promise for an awaited call). *)
Definition oracle : Type := forall c : call, fallible (resp c).

(** ** Programs

    A function of the composable is a tree of reads and writes of the
    shared state, calls on collaborators and suspension points.  [Vis]
    hands the collaborator's answer, value or error, to the rest of the
    program; [Yield] is an [await] on a promise that is already settled. *)
Inductive prog (A : Type) : Type :=
| Ret (a : A)
| Throw (e : JsError)
| Get (k : Sor -> prog A)
| Put (s : Sor) (k : prog A)
| Vis (c : call) (k : fallible (resp c) -> prog A)
| Yield (k : prog A).
Arguments Ret {A} a.
Arguments Throw {A} e.
Arguments Get {A} k.
Arguments Put {A} s k.
Arguments Vis {A} c k.
Arguments Yield {A} k.

Fixpoint bind {A B} (m : prog A) (f : A -> prog B) : prog B :=
  match m with
  | Ret a => f a
  | Throw e => Throw e
  | Get k => Get (fun s => bind (k s) f)
  | Put s k => Put s (bind k f)
  | Vis c k => Vis c (fun r => bind (k r) f)
  | Yield k => Yield (bind k f)
  end.

(** [try { body } catch (e) { handler e }] *)
Fixpoint try_catch {A} (body : prog A) (handler : JsError -> prog A) : prog A :=
  match body with
  | Ret a => Ret a
  | Throw e => handler e
  | Get k => Get (fun s => try_catch (k s) handler)
  | Put s k => Put s (try_catch k handler)
  | Vis c k => Vis c (fun r => try_catch (k r) handler)
  | Yield k => Yield (try_catch k handler)
  end.

Declare Scope prog_scope.
Delimit Scope prog_scope with prog.
Notation "x <- m ;; k" := (bind m (fun x => k))
  (at level 61, m at next level, right associativity) : prog_scope.
Notation "m ;; k" := (bind m (fun _ => k))
  (at level 61, right associativity) : prog_scope.
Local Open Scope prog_scope.

Definition get : prog Sor := Get Ret.
Definition modify (f : Sor -> Sor) : prog unit :=
  Get (fun s => Put (f s) (Ret tt)).

(** A fallible pure step: its error is thrown. *)
Definition lift {A} (r : fallible A) : prog A :=
  match r with
  | Ok a => Ret a
  | Err e => Throw e
  end.

(** A call on a collaborator; awaited when [awaited c]. *)
Definition perform (c : call) : prog (resp c) := Vis c lift.

(** A message to a telemetry sink ([trackGoal], [captureException]):
    nothing comes back and nothing is thrown. *)
Definition notify (c : call) : prog unit := Vis c (fun _ => Ret tt).

(** ** Running a program to completion

    Every awaited promise settles before anything else happens: the
    collaborators answer through the oracle, in order.  The outcome is
    the calls made, the final state and the returned value or error. *)
Record outcome (A : Type) : Type := mkOutcome {
  trace : list call;
  final : Sor;
  value : fallible A
}.
Arguments mkOutcome {A} trace final value.
Arguments trace {A} o.
Arguments final {A} o.
Arguments value {A} o.

Fixpoint run_from {A} (o : oracle) (p : prog A) (s : Sor) (done : list call)
  : outcome A :=
  match p with
  | Ret a => mkOutcome (rev done) s (Ok a)
  | Throw e => mkOutcome (rev done) s (Err e)
  | Get k => run_from o (k s) s done
  | Put s' k => run_from o k s' done
  | Vis c k => run_from o (k (o c)) s (c :: done)
  | Yield k => run_from o k s done
  end.

Definition run {A} (o : oracle) (p : prog A) (s : Sor) : outcome A :=
  run_from o p s [].

(** ** Interleaved activations

    Between two suspension points an activation runs alone; at a
    suspension point (an awaited call, a [Yield]) it is parked until its
    promise settles, and other activations and the user may act. *)
Inductive parked : Type :=
| AwaitCall (c : call) (k : fallible (resp c) -> prog unit)
| AwaitTick (k : prog unit).

Inductive status : Type :=
| Finished (r : fallible unit)
| Parked (p : parked).

(** Runs [p] up to its next suspension point; calls that answer at once
    are answered by [o]. *)
Fixpoint advance (o : oracle) (p : prog unit) (s : Sor) : Sor * status :=
  match p with
  | Ret a => (s, Finished (Ok a))
  | Throw e => (s, Finished (Err e))
  | Get k => advance o (k s) s
  | Put s' k => advance o k s'
  | Vis c k =>
      if awaited c then (s, Parked (AwaitCall c k))
      else advance o (k (o c)) s
  | Yield k => (s, Parked (AwaitTick k))
  end.

(** Resumes a parked activation: [settled] holds the value its promise
    settles with, [o] answers the calls that answer at once. *)
Definition resume (o settled : oracle) (p : parked) (s : Sor) : Sor * status :=
  match p with
  | AwaitCall c k => advance o (k (settled c)) s
  | AwaitTick k => advance o k s
  end.

(** What can happen next: an activation of a function starts, the promise
    awaited by the [i]-th activation settles, or the refs are written
    from outside (the user types). *)
Inductive step : Type :=
| Invoke (p : prog unit)
| Settle (i : nat) (settled : oracle)
| Edit (f : Sor -> Sor).

Record config : Type := mkConfig {
  store : Sor;
  activations : list status
}.

Fixpoint replace_nth {A} (i : nat) (x : A) (l : list A) : list A :=
  match l, i with
  | [], _ => []
  | _ :: l', O => x :: l'
  | y :: l', S i' => y :: replace_nth i' x l'
  end.

Definition do_step (o : oracle) (c : config) (st : step) : config :=
  match st with
  | Invoke p =>
      let '(s', a) := advance o p (store c) in
      mkConfig s' (activations c ++ [a])
  | Settle i settled =>
      match nth_error (activations c) i with
      | Some (Parked p) =>
          let '(s', a) := resume o settled p (store c) in
          mkConfig s' (replace_nth i a (activations c))
      | _ => c
      end
  | Edit f => mkConfig (f (store c)) (activations c)
  end.

Definition schedule (o : oracle) (s : Sor) (l : list step) : config :=
  fold_left (do_step o) l (mkConfig s []).

(** ** The composable *)

Definition MIN_PRICE_IMPACT : JS.number := JS.of_decimal false 1 (-4).
Definition HIGH_PRICE_IMPACT_THRESHOLD : JS.number := JS.of_decimal false 5 (-2).

(** [s.toLowerCase()] on the letters A to Z. *)
Definition toLowerCase (s : string) : string :=
  string_of_list_ascii
    (map (fun c =>
            let n := nat_of_ascii c in
            if (65 <=? n)%nat && (n <=? 90)%nat then ascii_of_nat (n + 32) else c)
         (list_ascii_of_string s)).

(** [l.indexOf(x)]; [None] stands for -1. *)
Fixpoint indexOf (x : string) (l : list string) : option nat :=
  match l with
  | [] => None
  | y :: l' => if String.eqb y x then Some O
               else option_map S (indexOf x l')
  end.

(** [l[i]] where [i] comes from [indexOf]: [undefined] at -1. *)
Definition element (l : list string) (i : option nat) : option string :=
  match i with
  | Some n => nth_error l n
  | None => None
  end.

(** [x || 0] on numbers: 0 and NaN are falsy. *)
Definition or_zero (x : JS.number) : JS.number :=
  match x with
  | S754_zero _ | S754_nan => JS.zero
  | _ => x
  end.

Section UseSor.

Variable W : World.

Definition resetState : prog unit :=
  modify (set_highPriceImpact false) ;;
  modify (set_submissionError None).

Definition trackSwapEvent : prog unit :=
  notify (TrackGoal BalancerSwap None) ;;
  if isMainnet W then notify (TrackGoal BalancerSwapMainnet None) else Ret tt.

Definition formatAmount (amount : string) : string :=
  fNum2 W amount (mkFormat "" (Some 6%nat) (Some false) (Some true)).

(** [getToken(tokenAddress)?.decimals] *)
Definition getTokenDecimals (tokenAddress : string) : option nat :=
  option_map decimals (getToken W tokenAddress).

(** The amount shown for a derived side: empty unless positive. *)
Definition shownAmount (a : Z) (d : option nat) : string :=
  if BigNumber.gt a 0 then formatAmount (Fixed.formatUnits a d) else "".

Definition updateTradeAmounts : prog unit :=
  s <- get ;;
  if negb (sorManager s) then Ret tt
  else if hasSwaps (sorReturn s) && negb (confirming s) then
    let result0 := result (sorReturn s) in
    let swapType := if exactIn s then SwapExactIn else SwapExactOut in
    deltas <- perform (QueryBatchSwap swapType (swaps result0)
                         (tokenAddresses result0)) ;;
    s <- get ;;
    if negb (same_object result0 (result (sorReturn s))) then
      (* sorReturn was updated while we were querying *)
      Ret tt
    else if (2 <=? List.length deltas)%nat then
      let tokenInDecimals := getTokenDecimals (tokenInAddressInput s) in
      let tokenOutDecimals := getTokenDecimals (tokenOutAddressInput s) in
      let tokenInAddress :=
        if String.eqb (tokenInAddressInput s) (NATIVE_ASSET_ADDRESS W)
        then AddressZero else tokenInAddressInput s in
      let tokenOutAddress :=
        if String.eqb (tokenOutAddressInput s) (NATIVE_ASSET_ADDRESS W)
        then AddressZero else tokenOutAddressInput s in
      let tokenInAddress :=
        if isStEthAddress W (tokenInAddressInput s)
        then config_wstETH W else tokenInAddress in
      let tokenOutAddress :=
        if isStEthAddress W (tokenOutAddressInput s)
        then config_wstETH W else tokenOutAddress in
      let tokenInPosition :=
        indexOf (toLowerCase tokenInAddress) (tokenAddresses result0) in
      let tokenOutPosition :=
        indexOf (toLowerCase tokenOutAddress) (tokenAddresses result0) in
      tokenInAmount <- lift (rbind (BigNumber.from (element deltas tokenInPosition))
                               (fun v => Ok (BigNumber.abs v))) ;;
      tokenOutAmount <- lift (rbind (BigNumber.from (element deltas tokenOutPosition))
                                (fun v => Ok (BigNumber.abs v))) ;;
      match swapType with
      | SwapExactOut =>
          modify (set_tokenInAmountInput (shownAmount tokenInAmount tokenInDecimals))
      | SwapExactIn =>
          modify (set_tokenOutAmountInput (shownAmount tokenOutAmount tokenOutDecimals))
      end
    else Ret tt
  else Ret tt.

Definition resetInputAmounts (amount : string) : prog unit :=
  modify (set_tokenInAmountInput amount) ;;
  modify (set_tokenOutAmountInput amount) ;;
  modify (set_priceImpact JS.zero) ;;
  modify (fun s => set_sorReturn (set_hasSwaps false (sorReturn s)) s) ;;
  modify (fun s => set_sorReturn (set_returnAmount BigNumber.Zero (sorReturn s)) s).

Definition calcPriceImpact (tokenDecimals : option nat)
    (tokenAmount tokenAmountScaled : Z) (swapReturn : SorReturn)
  : fallible Z :=
  rbind (BigNumber.pow10 tokenDecimals) (fun divScale =>
  let wadScale := 10 ^ 18 in
  rbind (BigNumber.div (BigNumber.mul tokenAmountScaled divScale) tokenAmount)
    (fun effectivePrice =>
  rbind (Fixed.parseUnits
           (JS.toFixed (JS.Number (marketSpNormalised swapReturn)) 18) None)
    (fun marketSp =>
  rbind (BigNumber.div (BigNumber.mul effectivePrice wadScale) marketSp)
    (fun q => Ok (BigNumber.sub q BigNumber.ONE))))).

(** Native asset price in terms of the token, from stored prices. *)
Definition calculateEthPriceInToken (tokenAddress : string) : JS.number :=
  let ethPriceFiat := priceFor W (appNetwork_nativeAsset W) in
  let tokenPriceFiat := priceFor W tokenAddress in
  if JS.eqb tokenPriceFiat JS.zero then JS.zero
  else JS.div ethPriceFiat tokenPriceFiat.

Definition setSwapCost (tokenAddress : string) (tokenDecimals : option nat)
  : prog unit :=
  perform (SetCostOutputToken tokenAddress tokenDecimals
             (JS.toString (calculateEthPriceInToken tokenAddress))).

(** Adjusts an amount for the price impact calculation when wrapping
    takes place in the background (wstETH on the main network). *)
Definition adjustedPiAmount (a : Z) (addr : string) (isWrap : bool) : prog Z :=
  if isSameAddress W addr (appNetwork_wstETH W) && isMainnet W
  then perform (ConvertStEthWrap a isWrap)
  else Yield (Ret a).

(** [Math.max(Number(formatUnits(priceImpactCalc)), MIN_PRICE_IMPACT)] *)
Definition reportedImpact (priceImpactCalc : Z) : JS.number :=
  JS.max (JS.Number (Fixed.formatUnits priceImpactCalc None)) MIN_PRICE_IMPACT.

Definition handleAmountChange : prog unit :=
  s <- get ;;
  let amount := if exactIn s then tokenInAmountInput s
                else tokenOutAmountInput s in
  (* Avoid using SOR if querying a zero value or (un)wrapping trade *)
  let zeroValueTrade := String.eqb amount "" || String.eqb amount "0" in
  if zeroValueTrade then resetInputAmounts amount
  else
    let tokenInAddress := tokenInAddressInput s in
    let tokenOutAddress := tokenOutAddressInput s in
    if String.eqb tokenInAddress "" || String.eqb tokenOutAddress "" then
      if exactIn s then modify (set_tokenOutAmountInput "")
      else modify (set_tokenInAmountInput "")
    else
      let tokenInDecimals := getTokenDecimals (tokenInAddressInput s) in
      let tokenOutDecimals := getTokenDecimals (tokenOutAddressInput s) in
      if negb (WrapType_eqb (wrapType s) NonWrap) then
        let wrapper :=
          if WrapType_eqb (wrapType s) Wrap then tokenOutAddress
          else tokenInAddress in
        (if exactIn s then
           modify (set_tokenInAmountInput amount) ;;
           a <- lift (Fixed.parseFixed amount tokenInDecimals) ;;
           outputAmount <- perform (GetWrapOutput wrapper (wrapType s) a) ;;
           modify (set_tokenOutAmountInput
                     (Fixed.formatFixed outputAmount tokenInDecimals))
         else
           modify (set_tokenOutAmountInput amount) ;;
           a <- lift (Fixed.parseFixed amount tokenOutDecimals) ;;
           inputAmount <- perform
             (GetWrapOutput wrapper
                (if WrapType_eqb (wrapType s) Wrap then Unwrap else Wrap) a) ;;
           modify (set_tokenInAmountInput
                     (Fixed.formatFixed inputAmount tokenOutDecimals))) ;;
        modify (fun s => set_sorReturn (set_hasSwaps false (sorReturn s)) s) ;;
        modify (set_priceImpact JS.zero)
      else
        hasPoolData <- (if sorManager s then perform HasPoolData else Ret false) ;;
        if negb hasPoolData then
          if exactIn s then modify (set_tokenOutAmountInput "")
          else modify (set_tokenInAmountInput "")
        else
          (if exactIn s then
             setSwapCost (tokenOutAddressInput s) tokenOutDecimals ;;
             tokenInAmountScaled <- lift (Fixed.parseUnits amount tokenInDecimals) ;;
             swapReturn <- perform
               (GetBestSwap tokenInAddress tokenOutAddress tokenInDecimals
                  tokenOutDecimals SwapExactIn tokenInAmountScaled) ;;
             modify (set_sorReturn swapReturn) ;;
             let tokenOutAmount := returnAmount swapReturn in
             modify (set_tokenOutAmountInput
                       (shownAmount tokenOutAmount tokenOutDecimals)) ;;
             s <- get ;;
             if negb (hasSwaps (sorReturn s)) then
               modify (set_priceImpact JS.zero)
             else
               tokenOutAmount <- adjustedPiAmount tokenOutAmount tokenOutAddress true ;;
               priceImpactCalc <- lift
                 (calcPriceImpact tokenOutDecimals tokenOutAmount
                    tokenInAmountScaled swapReturn) ;;
               modify (set_priceImpact (reportedImpact priceImpactCalc))
           else
             setSwapCost (tokenInAddressInput s) tokenInDecimals ;;
             tokenOutAmountScaled <- lift (Fixed.parseUnits amount tokenOutDecimals) ;;
             swapReturn <- perform
               (GetBestSwap tokenInAddress tokenOutAddress tokenInDecimals
                  tokenOutDecimals SwapExactOut tokenOutAmountScaled) ;;
             modify (set_sorReturn swapReturn) ;;
             let tokenInAmount := returnAmount swapReturn in
             modify (set_tokenInAmountInput
                       (shownAmount tokenInAmount tokenInDecimals)) ;;
             s <- get ;;
             if negb (hasSwaps (sorReturn s)) then
               modify (set_priceImpact JS.zero)
             else
               tokenInAmount <- adjustedPiAmount tokenInAmount tokenOutAddress true ;;
               priceImpactCalc <- lift
                 (calcPriceImpact tokenInDecimals tokenInAmount
                    tokenOutAmountScaled swapReturn) ;;
               modify (set_priceImpact (reportedImpact priceImpactCalc))) ;;
          selected <- perform SelectedPools ;;
          modify (set_pools selected) ;;
          modify (fun s =>
                    set_highPriceImpact
                      (JS.geb (priceImpact s) HIGH_PRICE_IMPACT_THRESHOLD) s).

(** [parseFixed(String(1 + slippageBufferRate.value), 18)] *)
Definition slippageFactor (s : Sor) : fallible Z :=
  Fixed.parseFixed
    (JS.toString (JS.add (JS.of_Z 1) (slippageBufferRate s))) (Some 18%nat).

Definition getMaxIn (s : Sor) (amount : Z) : fallible Z :=
  rbind (slippageFactor s) (fun f =>
  BigNumber.div (BigNumber.mul amount f) BigNumber.ONE).

Definition getMinOut (s : Sor) (amount : Z) : fallible Z :=
  rbind (slippageFactor s) (fun f =>
  BigNumber.div (BigNumber.mul amount BigNumber.ONE) f).

Definition getQuote (s : Sor) : fallible TradeQuote :=
  rbind (match tokenInAmountScaled s with
         | Some v => getMaxIn s v
         | None => Ok BigNumber.Zero
         end) (fun maximumInAmount =>
  rbind (match tokenOutAmountScaled s with
         | Some v => getMinOut s v
         | None => Ok BigNumber.Zero
         end) (fun minimumOutAmount =>
  Ok (mkTradeQuote "0" "0" maximumInAmount minimumOutAmount))).

(** [toFiat(tokenInAmountInput.value, tokenInAddressInput.value) || '0'] *)
Definition tradeUSDValue (s : Sor) : string :=
  let v := toFiat W (tokenInAmountInput s) (tokenInAddressInput s) in
  if String.eqb v "" then "0" else v.

(** The two callbacks [txHandler] registers with [txListener]. *)
Definition onTxConfirmed (tradeUSDValue : string) (tx : TransactionResponse)
  : prog unit :=
  notify (TrackGoal Swapped (Some (or_zero (timesHundred W tradeUSDValue)))) ;;
  modify (set_trading false) ;;
  modify (set_latestTxHash (hash tx)).

Definition onTxFailed : prog unit := modify (set_trading false).

Definition txHandler (tx : TransactionResponse) (action : TransactionAction)
  : prog unit :=
  modify (set_confirming false) ;;
  s <- get ;;
  let fmt := mkFormat (preset (FNumFormats_token W)) (Some 6%nat)
               (useGrouping (FNumFormats_token W))
               (fixedFormat (FNumFormats_token W)) in
  let tokenInAmountFormatted := fNum2 W (tokenInAmountInput s) fmt in
  let tokenOutAmountFormatted := fNum2 W (tokenOutAmountInput s) fmt in
  let tokenInSymbol := symbol (tokenIn s) in
  let tokenOutSymbol := symbol (tokenOut s) in
  let summary :=
    match action with
    | ActWrap | ActUnwrap =>
        t_wrapUnwrap W tokenInAmountFormatted tokenInSymbol tokenOutSymbol
    | ActTrade =>
        tokenInAmountFormatted ++ " " ++ tokenInSymbol ++ " -> "
          ++ tokenOutAmountFormatted ++ " " ++ tokenOutSymbol
    end in
  quote <- lift (getQuote s) ;;
  perform (AddTransaction
             (mkNewTransaction (hash tx) "tx" action summary
                (mkDetails (tokenIn s) (tokenOut s) (tokenInAddressInput s)
                   (tokenOutAddressInput s) (tokenInAmountInput s)
                   (tokenOutAmountInput s) (exactIn s) quote (priceImpact s)
                   (slippageBufferRate s)))) ;;
  perform (TxListener tx).

(** [getToken(a).decimals]: a [TypeError] when the token is unknown. *)
Definition decimalsOf (a : string) : prog nat :=
  match getToken W a with
  | Some t => Ret (decimals t)
  | None => Throw (mkError "Cannot read properties of undefined (reading 'decimals')")
  end.

(** The [catch] block shared by the four submissions. *)
Definition submissionFailed (e : JsError) : prog unit :=
  notify (CaptureException e) ;;
  modify (set_submissionError (Some (message e))) ;;
  modify (set_trading false) ;;
  modify (set_confirming false).

(** What follows a submission inside its [try] block. *)
Definition submitted (tx : TransactionResponse) (action : TransactionAction)
    (successCallback : bool) : prog unit :=
  txHandler tx action ;;
  (if successCallback then perform SuccessCallback else Ret tt) ;;
  trackSwapEvent.

Definition trade (successCallback : bool) : prog unit :=
  notify (TrackGoal ClickSwap None) ;;
  modify (set_trading true) ;;
  modify (set_confirming true) ;;
  modify (set_submissionError None) ;;
  s <- get ;;
  let tokenInAddress := tokenInAddressInput s in
  let tokenOutAddress := tokenOutAddressInput s in
  tokenInDecimals <- decimalsOf tokenInAddress ;;
  tokenOutDecimals <- decimalsOf tokenOutAddress ;;
  tokenInAmountScaled <- lift
    (Fixed.parseFixed (tokenInAmountInput s) (Some tokenInDecimals)) ;;
  match wrapType s with
  | Wrap =>
      try_catch
        (tx <- perform (WrapTx (appNetwork_key W) tokenOutAddress
                          tokenInAmountScaled) ;;
         submitted tx ActWrap successCallback)
        submissionFailed
  | Unwrap =>
      try_catch
        (tx <- perform (UnwrapTx (appNetwork_key W) tokenInAddress
                          tokenInAmountScaled) ;;
         submitted tx ActUnwrap successCallback)
        submissionFailed
  | NonWrap =>
      if exactIn s then
        tokenOutAmount <- lift
          (Fixed.parseFixed (tokenOutAmountInput s) (Some tokenOutDecimals)) ;;
        minAmount <- lift (getMinOut s tokenOutAmount) ;;
        let sr := sorReturn s in
        try_catch
          (tx <- perform (SwapIn sr tokenInAmountScaled minAmount) ;;
           submitted tx ActTrade successCallback)
          submissionFailed
      else
        tokenInAmountMax <- lift (getMaxIn s tokenInAmountScaled) ;;
        let sr := sorReturn s in
        tokenOutAmountScaled <- lift
          (Fixed.parseFixed (tokenOutAmountInput s) (Some tokenOutDecimals)) ;;
        try_catch
          (tx <- perform (SwapOut sr tokenInAmountMax tokenOutAmountScaled) ;;
           submitted tx ActTrade successCallback)
          submissionFailed
  end.

End UseSor.

(** * Vocabulary of the properties *)

(** The side of the trade the user edits, its amount, and the amount
    shown on the other, derived side. *)
Definition editedAmount (s : Sor) : string :=
  if exactIn s then tokenInAmountInput s else tokenOutAmountInput s.

Definition derivedAmount (s : Sor) : string :=
  if exactIn s then tokenOutAmountInput s else tokenInAmountInput s.

(** The decimals the edited amount is read at, and those of the derived
    side. *)
Definition editedDecimals (W : World) (s : Sor) : option nat :=
  if exactIn s then getTokenDecimals W (tokenInAddressInput s)
  else getTokenDecimals W (tokenOutAddressInput s).

Definition derivedDecimals (W : World) (s : Sor) : option nat :=
  if exactIn s then getTokenDecimals W (tokenOutAddressInput s)
  else getTokenDecimals W (tokenInAddressInput s).

(** No call of the trace is a quote of the routing engine. *)
Definition routerUntouched (tr : list call) : Prop :=
  existsb is_getBestSwap tr = false.

(** The wrapper token of a wrap pair and the question put to the Wrap
    Adapter: the wrap kind itself when the input side is edited, the
    inverse kind otherwise. *)
Definition wrapperOf (s : Sor) : string :=
  if WrapType_eqb (wrapType s) Wrap then tokenOutAddressInput s
  else tokenInAddressInput s.

Definition wrapQuery (s : Sor) (a : Z) : call :=
  GetWrapOutput (wrapperOf s)
    (if exactIn s then wrapType s
     else if WrapType_eqb (wrapType s) Wrap then Unwrap else Wrap) a.

(** The token whose cost the routing engine is told, and the two calls
    made on the engine for a quote of the amount [a]. *)
Definition costToken (s : Sor) : string :=
  if exactIn s then tokenOutAddressInput s else tokenInAddressInput s.

Definition costQuery (W : World) (s : Sor) : call :=
  SetCostOutputToken (costToken s) (derivedDecimals W s)
    (JS.toString (calculateEthPriceInToken W (costToken s))).

Definition quoteQuery (W : World) (s : Sor) (a : Z) : call :=
  GetBestSwap (tokenInAddressInput s) (tokenOutAddressInput s)
    (getTokenDecimals W (tokenInAddressInput s))
    (getTokenDecimals W (tokenOutAddressInput s))
    (if exactIn s then SwapExactIn else SwapExactOut) a.

(** The trade intent reaches the routing engine with the amount [a]:
    a non-zero amount on a known, non-wrap pair, pool data at hand, the
    cost parameters accepted and the amount readable. *)
Definition reachesRouter (W : World) (o : oracle) (s : Sor) (a : Z) : Prop :=
  editedAmount s <> "" /\
  editedAmount s <> "0" /\
  tokenInAddressInput s <> "" /\
  tokenOutAddressInput s <> "" /\
  wrapType s = NonWrap /\
  sorManager s = true /\
  o HasPoolData = Ok true /\
  o (costQuery W s) = Ok tt /\
  Fixed.parseUnits (editedAmount s) (editedDecimals W s) = Ok a.

(** [adj] is what [adjustedPiAmount amt addr] resolves to. *)
Definition adjustsTo (W : World) (o : oracle) (amt : Z) (addr : string)
    (adj : Z) : Prop :=
  if isSameAddress W addr (appNetwork_wstETH W) && isMainnet W
  then o (ConvertStEthWrap amt true) = Ok adj
  else adj = amt.

(** [parseUnits(Number(swapReturn.marketSpNormalised).toFixed(18))] *)
Definition marketSpScaled (sr : SorReturn) : fallible Z :=
  Fixed.parseUnits (JS.toFixed (JS.Number (marketSpNormalised sr)) 18) None.

(** The flag is set exactly when the price impact is at or above the
    threshold. *)
Definition flagTracksImpact (s : Sor) : Prop :=
  highPriceImpact s = true <->
  JS.geb (priceImpact s) HIGH_PRICE_IMPACT_THRESHOLD = true.

(** * A concrete setting

    Two tokens, collaborators that answer, and the states the examples
    below start from. *)

Module Demo.

Definition weth : TokenInfo := mkToken "0xA" 18 "WETH".
Definition usdc : TokenInfo := mkToken "0xB" 6 "USDC".
Definition eth : TokenInfo :=
  mkToken "0xEeeeeEeeeEeEeeEeEeEeeEEEeeeeEeeeeeeeEEeE" 18 "ETH".

Definition world : World :=
  mkWorld
    (fun a => if String.eqb a "0xA" then Some weth
              else if String.eqb a "0xB" then Some usdc
              else if String.eqb a (address eth) then Some eth else None)
    (fun _ => JS.of_Z 1) false (fun a _ => a) (mkFormat "token" None None None)
    (fun a b c => a ++ " " ++ b ++ " -> " ++ c) (fun a _ => a)
    (fun _ => JS.zero) (fun _ => false) String.eqb
    "0xEeeeeEeeeEeEeeEeEeEeeEEEeeeeEeeeeeeeEEeE" "1"
    "0xEeeeeEeeeEeEeeEeEeEeeEEEeeeeEeeeeeeeEEeE" "0xW" "0xW".

(** A route for the amount [a]: two units out per unit in, at a spot
    price of one half; each quote returns a fresh route object. *)
Definition routeFor (a : Z) : SorReturn :=
  mkSorReturn true "0xa" "0xb" 6 (2 * a / 10 ^ 12) "0.5"
    (mkSwapInfo (Z.to_nat (a / 10 ^ 18)) ["0xa"; "0xb"]
       [mkSwapStep "pool" 0 1 "0"]).

Definition answers : oracle :=
  fun c =>
    match c return fallible (resp c) with
    | GetWrapOutput _ _ a => Ok a
    | GetBestSwap _ _ _ _ _ a => Ok (routeFor a)
    | ConvertStEthWrap a _ => Ok a
    | QueryBatchSwap _ _ _ => Ok ["1000000000000000000"; "-1990000"]
    | WrapTx _ _ _ | UnwrapTx _ _ _ | SwapIn _ _ _ | SwapOut _ _ _ =>
        Ok (mkTx "0xhash")
    | HasPoolData => Ok true
    | SelectedPools => Ok []
    | _ => Ok tt
    end.

(** An exact-in trade of 1 WETH for USDC, pools loaded, nothing
    quoted yet. *)
Definition idle : Sor :=
  mkSor true "0xA" "1" "0xB" "" NonWrap None None weth usdc
    (JS.Number "0.01") true [] initialSorReturn false false JS.zero ""
    false false None.

(** Quote A starts for the amount 1; the user types 2 and quote B
    starts; B's promises settle first, then A's. *)
Definition staleQuoteSchedule : list step :=
  [ Invoke (handleAmountChange world);   (* A: parked on setCostOutputToken *)
    Settle 0 answers;                    (* A: parked on getBestSwap(1) *)
    Edit (set_tokenInAmountInput "2");
    Invoke (handleAmountChange world);   (* B: parked on setCostOutputToken *)
    Settle 1 answers;                    (* B: parked on getBestSwap(2) *)
    Settle 1 answers;                    (* B: route applied *)
    Settle 1 answers;                    (* B: done *)
    Settle 0 answers;                    (* A: route applied *)
    Settle 0 answers ].                  (* A: done *)

(** The same trade once B's quote has been applied. *)
Definition quoted : Sor :=
  final (run answers (handleAmountChange world)
           (set_tokenInAmountInput "2" idle)).

(** The routing engine finds a poor route: 1.6 units out per unit in
    where the spot price promises 2, an impact of 0.25. *)
Definition steep : oracle :=
  fun c =>
    match c return fallible (resp c) with
    | GetBestSwap _ _ _ _ _ a =>
        Ok (set_returnAmount (16 * a / 10 ^ 13) (routeFor a))
    | c' => answers c'
    end.

(** The poor route has been quoted, which raised the flag, and the user
    has then cleared the amount. *)
Definition clearedAfterWarning : Sor :=
  set_tokenInAmountInput ""
    (final (run steep (handleAmountChange world) idle)).


(** The routing engine finds no route. *)
Definition noRoute : oracle :=
  fun c =>
    match c return fallible (resp c) with
    | GetBestSwap _ _ _ _ _ _ => Ok initialSorReturn
    | c' => answers c'
    end.

(** The wallet declines every submission. *)
Definition declined : oracle :=
  fun c =>
    match c return fallible (resp c) with
    | WrapTx _ _ _ | UnwrapTx _ _ _ | SwapIn _ _ _ | SwapOut _ _ _ =>
        Err (mkError "user rejected transaction")
    | c' => answers c'
    end.

End Demo.

(** * Vocabulary of the simulation and of the submission

    [updateTradeAmounts] simulates the stored route against the vault
    and shows the simulated amount on the derived side. *)

(** The address a token input is looked up under in the route:
    wstETH for stETH, the zero address for the native asset, lower
    case. *)
Definition routeAddress (W : World) (input : string) : string :=
  toLowerCase
    (if isStEthAddress W input then config_wstETH W
     else if String.eqb input (NATIVE_ASSET_ADDRESS W) then AddressZero
     else input).

(** The simulation runs: a routing engine, a route with swaps, no
    confirmation pending. *)
Definition simulationOpen (s : Sor) : bool :=
  sorManager s && hasSwaps (sorReturn s) && negb (confirming s).

Definition simulationQuery (s : Sor) : call :=
  QueryBatchSwap (if exactIn s then SwapExactIn else SwapExactOut)
    (swaps (result (sorReturn s))) (tokenAddresses (result (sorReturn s))).

(** [BigNumber.from(deltas[position] ?? '0').abs()] for the position of
    the token in the route. *)
Definition deltaOf (W : World) (route : SwapInfo) (deltas : list string)
    (input : string) : fallible Z :=
  rbind (BigNumber.from
           (element deltas
              (indexOf (routeAddress W input) (tokenAddresses route))))
    (fun v => Ok (BigNumber.abs v)).

(** Writing the amount of the derived side. *)
Definition set_derivedAmount (v : string) (s : Sor) : Sor :=
  if exactIn s then set_tokenOutAmountInput v s
  else set_tokenInAmountInput v s.

(** The action recorded for a trade of the given kind. *)
Definition actionOf (w : WrapType) : TransactionAction :=
  match w with
  | Wrap => ActWrap
  | Unwrap => ActUnwrap
  | NonWrap => ActTrade
  end.


(** The hash of the transaction a submission call was answered with. *)
Definition responseHash (o : oracle) (c : call) : option string :=
  match c with
  | WrapTx n w a =>
      match o (WrapTx n w a) with Ok tx => Some (hash tx) | Err _ => None end
  | UnwrapTx n w a =>
      match o (UnwrapTx n w a) with Ok tx => Some (hash tx) | Err _ => None end
  | SwapIn sr a m =>
      match o (SwapIn sr a m) with Ok tx => Some (hash tx) | Err _ => None end
  | SwapOut sr m a =>
      match o (SwapOut sr m a) with Ok tx => Some (hash tx) | Err _ => None end
  | _ => None
  end.

(** * Token lists

    The token lists provider keeps the keys of the active lists in one
    array; [toggleTokenList] is its only writer.  [approved] stands for
    [uris.Approved]; the value handed to [lsSet] is returned beside the
    new array. *)

Module TokenLists.

(** [Array.prototype.includes] on strings. *)
Definition includes (l : list string) (x : string) : bool :=
  existsb (String.eqb x) l.

(** [l.splice(i, 1)] for an index inside the array. *)
Fixpoint splice1 (i : nat) (l : list string) : list string :=
  match l, i with
  | [], _ => []
  | _ :: t, O => t
  | h :: t, S j => h :: splice1 j t
  end.

(** [l.splice(l.indexOf(x), 1)]: an index of -1 counts from the end
    and takes the last element away. *)
Definition spliceAtIndexOf (x : string) (l : list string) : list string :=
  match indexOf x l with
  | Some i => splice1 i l
  | None => removelast l
  end.

Definition toggleTokenList (approved : list string) (uri : string)
    (activeListKeys : list string) : list string * option (list string) :=
  if negb (includes approved uri) then (activeListKeys, None)
  else
    let keys :=
      if includes activeListKeys uri
      then (* Deactivate token list *) spliceAtIndexOf uri activeListKeys
      else (* Activate token list *) (activeListKeys ++ [uri])%list in
    (keys, Some keys).

Definition isActiveList (activeListKeys : list string) (uri : string) : bool :=
  includes activeListKeys uri.

(** The active keys after a sequence of calls of [toggleTokenList]. *)
Definition toggles (approved uris activeListKeys : list string) : list string :=
  fold_left (fun keys uri => fst (toggleTokenList approved uri keys))
    uris activeListKeys.

(** The array without the first occurrence of [x]: what the splice of
    [toggleTokenList] leaves of an array that holds [x]. *)
Fixpoint withoutFirst (x : string) (l : list string) : list string :=
  match l with
  | [] => []
  | y :: t => if String.eqb y x then t else y :: withoutFirst x t
  end.

End TokenLists.

(** * Further states of the concrete setting *)

Module Scenes.

(** The quoted trade after the routing engine has been asked again and
    has answered with another route object. *)
Definition requoted : Sor :=
  set_sorReturn (Demo.routeFor (10 ^ 18)) Demo.quoted.

(** The quoted trade while the wallet is asked to confirm. *)
Definition awaitingWallet : Sor := set_confirming true Demo.quoted.

(** A route that does not go through the input token. *)
Definition detour : Sor :=
  set_sorReturn
    (mkSorReturn true "0xc" "0xb" 6 4000000 "0.5"
       (mkSwapInfo 7 ["0xc"; "0xb"] [mkSwapStep "pool" 0 1 "0"]))
    Demo.quoted.

(** The output token has not been chosen yet; the output amount of an
    earlier quote is still on display. *)
Definition unselected : Sor :=
  mkSor true "0xA" "1" "" "5" NonWrap None None Demo.weth Demo.usdc
    (JS.Number "0.01") true [] initialSorReturn false false JS.zero ""
    false false None.

(** The routing engine returns a route that pays nothing out. *)
Definition worthless : oracle :=
  fun c =>
    match c return fallible (resp c) with
    | GetBestSwap _ _ _ _ _ a => Ok (set_returnAmount 0 (Demo.routeFor a))
    | c' => Demo.answers c'
    end.

(** Wrapping 1.5 of a token that is not in the registry, with the
    amount of an earlier quote on the output side. *)
Definition unknownWrap : Sor :=
  mkSor true "0xZ" "1.5" "0xA" "7" Wrap None None
    (mkToken "0xZ" 18 "Z") Demo.weth (JS.Number "0.01") true []
    initialSorReturn false false JS.zero "" false false None.

(** The concrete setting on the main network. *)
Definition mainnet : World :=
  mkWorld (getToken Demo.world) (priceFor Demo.world) true
    (fNum2 Demo.world) (FNumFormats_token Demo.world)
    (t_wrapUnwrap Demo.world) (toFiat Demo.world) (timesHundred Demo.world)
    (isStEthAddress Demo.world) (isSameAddress Demo.world)
    (NATIVE_ASSET_ADDRESS Demo.world) (appNetwork_key Demo.world)
    (appNetwork_nativeAsset Demo.world) (appNetwork_wstETH Demo.world)
    (config_wstETH Demo.world).

(** An exact-in trade of 1 WETH for wstETH. *)
Definition toWstETH : Sor :=
  mkSor true "0xA" "1" "0xW" "" NonWrap None None Demo.weth
    (mkToken "0xW" 18 "wstETH") (JS.Number "0.01") true []
    initialSorReturn false false JS.zero "" false false None.

(** Token list uris: two approved lists, and one that is not. *)
Definition approved : list string := ["lists/default"; "lists/external"].

Definition vetted : string := "lists/vetted".

End Scenes.

(** * Symbolic execution

    A run is unfolded one equation at a time inside a hypothesis
    [E : out = run_from o p s done]; where the program waits for a value
    that is not known, a hypothesis about that value is used if there is
    one, and the cases are split otherwise. *)

Section RunEquations.
Context {A : Type} (o : oracle) (s : Sor) (done : list call).

Lemma run_from_Ret (a : A) :
  run_from o (Ret a) s done = mkOutcome (rev done) s (Ok a).
Proof. reflexivity. Qed.

Lemma run_from_Throw (e : JsError) :
  run_from (A := A) o (Throw e) s done = mkOutcome (rev done) s (Err e).
Proof. reflexivity. Qed.

Lemma run_from_Get (k : Sor -> prog A) :
  run_from o (Get k) s done = run_from o (k s) s done.
Proof. reflexivity. Qed.

Lemma run_from_Put (s' : Sor) (k : prog A) :
  run_from o (Put s' k) s done = run_from o k s' done.
Proof. reflexivity. Qed.

Lemma run_from_Vis (c : call) (k : fallible (resp c) -> prog A) :
  run_from o (Vis c k) s done = run_from o (k (o c)) s (c :: done).
Proof. reflexivity. Qed.

Lemma run_from_Yield (k : prog A) :
  run_from o (Yield k) s done = run_from o k s done.
Proof. reflexivity. Qed.
End RunEquations.

Lemma eqb_false_of_neq (a b : string) : a <> b -> String.eqb a b = false.
Proof. intro H. apply String.eqb_neq. exact H. Qed.

(** Reading a field of an updated state, and the glue of programs. *)
Ltac norm_in E :=
  cbn [bind try_catch lift negb orb andb WrapType_eqb
       set_tokenInAmountInput set_tokenOutAmountInput set_pools set_sorReturn
       set_trading set_confirming set_priceImpact set_latestTxHash
       set_highPriceImpact set_submissionError set_hasSwaps set_returnAmount
       exactIn tokenInAddressInput tokenInAmountInput tokenOutAddressInput
       tokenOutAmountInput wrapType tokenInAmountScaled tokenOutAmountScaled
       tokenIn tokenOut slippageBufferRate sorManager pools sorReturn trading
       confirming priceImpact latestTxHash poolsLoading highPriceImpact
       submissionError hasSwaps returnAmount marketSpNormalised result] in E.

Ltac norm_goal :=
  cbn [final value trace rev app negb orb andb existsb is_getBestSwap
       set_tokenInAmountInput set_tokenOutAmountInput set_pools set_sorReturn
       set_trading set_confirming set_priceImpact set_latestTxHash
       set_highPriceImpact set_submissionError set_hasSwaps set_returnAmount
       exactIn tokenInAddressInput tokenInAmountInput tokenOutAddressInput
       tokenOutAmountInput wrapType tokenInAmountScaled tokenOutAmountScaled
       tokenIn tokenOut slippageBufferRate sorManager pools sorReturn trading
       confirming priceImpact latestTxHash poolsLoading highPriceImpact
       submissionError hasSwaps returnAmount marketSpNormalised result].

Ltac exec1 E :=
  first [ progress (norm_in E)
        | progress (unfold modify, get, perform, notify, resetInputAmounts,
                      setSwapCost, adjustedPiAmount, trackSwapEvent,
                      decimalsOf, submitted, submissionFailed, txHandler in E)
        | rewrite run_from_Get in E
        | rewrite run_from_Put in E
        | rewrite run_from_Vis in E
        | rewrite run_from_Yield in E
        | rewrite run_from_Ret in E
        | rewrite run_from_Throw in E ].

(** The value the program at the head of the run is waiting for. *)
Ltac settle x E :=
  first
    [ match goal with
      | H : ?y = _ |- _ =>
          lazymatch x with
          | context [y] => progress (rewrite H in E)
          end
      end
    | lazymatch x with
      | match ?y with _ => _ end => settle y E
      | orb ?a _ => settle a E
      | andb ?a _ => settle a E
      | negb ?a => settle a E
      | _ => destruct x eqn:?
      end ].

Ltac waiting_for p E :=
  lazymatch p with
  | bind ?m _ => waiting_for m E
  | try_catch ?m _ => waiting_for m E
  | lift ?x => settle x E
  | match ?x with _ => _ end => settle x E
  end.

Ltac exec E :=
  repeat first
    [ exec1 E
    | match type of E with
      | _ = run_from _ ?p _ _ => waiting_for p E
      end ].

(** Names the run of the goal [out] and keeps its equation as [E]. *)
Ltac name_run out E :=
  match goal with
  | |- context [run ?o ?p ?s] =>
      remember (run o p s) as out eqn:E; unfold run in E
  end.

(** * Properties *)

(** ** The value model at work *)

(** Numbers print the way [String] and [toFixed] print them. *)
Example number_printing :
  map (fun x => JS.toString (JS.Number x))
    ["0.05"; "1e21"; "1e-7"; "123456789012345678901"; "-12.5"; "5e-324"; "abc"]
  = ["0.05"; "1e+21"; "1e-7"; "123456789012345680000"; "-12.5"; "5e-324"; "NaN"]
  /\ JS.toString (JS.add (JS.Number "0.1") (JS.Number "0.2"))
     = "0.30000000000000004"
  /\ JS.toString (JS.add (JS.of_Z 1) (JS.Number "0.01")) = "1.01"
  /\ map (fun x => JS.toFixed (JS.Number x) 18) ["0.05"; "1.0023"; "-0.5"; "1e21"]
     = ["0.050000000000000003"; "1.002299999999999969";
        "-0.500000000000000000"; "1e+21"].
Proof. vm_compute. repeat split. Qed.

(** Fixed-point strings are read and printed the way ethers does. *)
Example fixed_point_strings :
  map (fun x => Fixed.parseFixed x (Some 18%nat)) ["1.01"; "-.5"; "5."; "007"]
  = [Ok 1010000000000000000; Ok (-500000000000000000);
     Ok 5000000000000000000; Ok 7000000000000000000]
  /\ Fixed.parseFixed "0.0000000000000000001" (Some 18%nat)
     = throwError "fractional component exceeds decimals"
  /\ Fixed.parseFixed "1.5" None
     = throwError "fractional component exceeds decimals"
  /\ Fixed.parseFixed "1e5" (Some 18%nat) = throwError "invalid decimal value"
  /\ map (fun z => Fixed.formatUnits z None)
       [0; 1500000000000000000; -50000000000000000]
     = ["0.0"; "1.5"; "-0.05"]
  /\ map (fun z => Fixed.formatFixed z (Some 6%nat)) [2000000; 1230000]
     = ["2.0"; "1.23"]
  /\ Fixed.formatFixed 15 None = "15".
Proof. vm_compute. repeat split. Qed.

(** ** Zero-amount short circuit *)

(** C3. When the edited amount is the empty string or the literal "0",
    [handleAmountChange] returns normally having made no call at all (so
    none on the routing engine); both displayed amounts are that value,
    the price impact is 0, [hasSwaps] is false and [returnAmount] is
    zero. *)
Theorem zero_amount_short_circuit (W : World) (o : oracle) (s : Sor) :
  editedAmount s = "" \/ editedAmount s = "0" ->
  let out := run o (handleAmountChange W) s in
  value out = Ok tt /\
  trace out = [] /\
  routerUntouched (trace out) /\
  tokenInAmountInput (final out) = editedAmount s /\
  tokenOutAmountInput (final out) = editedAmount s /\
  priceImpact (final out) = JS.zero /\
  hasSwaps (sorReturn (final out)) = false /\
  returnAmount (sorReturn (final out)) = 0.
Proof.
  intros H out. subst out. name_run out E.
  unfold handleAmountChange, resetInputAmounts in E.
  unfold routerUntouched, editedAmount in *.
  assert (Hz : String.eqb (if exactIn s then tokenInAmountInput s
                           else tokenOutAmountInput s) ""
               || String.eqb (if exactIn s then tokenInAmountInput s
                              else tokenOutAmountInput s) "0" = true).
  { destruct H as [-> | ->]; reflexivity. }
  exec E. subst out. norm_goal.
  repeat split; reflexivity.
Qed.

(** ** Wrap and unwrap pairs *)



(** ** Routed quotes *)

(** Unfolds a [reachesRouter] hypothesis into the facts the run uses. *)
Ltac use_reachesRouter R :=
  destruct R as (He & H0 & Hin & Hout & Hw & Hm & Hpd & Hcost & Hparse);
  apply eqb_false_of_neq in He, H0, Hin, Hout;
  unfold editedAmount, editedDecimals, costQuery, quoteQuery, costToken,
    derivedDecimals in *.

(** C6. A non-zero, non-wrap quote for which the routing engine reports
    no route ([hasSwaps] false) leaves the price impact at exactly 0, which
    is not the floor value 0.0001. *)
Theorem no_route_impact_zero (W : World) (o : oracle) (s : Sor) (a : Z)
    (sr : SorReturn) (selected : list Pool) :
  reachesRouter W o s a ->
  o (quoteQuery W s a) = Ok sr ->
  hasSwaps sr = false ->
  o SelectedPools = Ok selected ->
  let out := run o (handleAmountChange W) s in
  value out = Ok tt /\
  sorReturn (final out) = sr /\
  priceImpact (final out) = JS.zero /\
  priceImpact (final out) <> MIN_PRICE_IMPACT.
Proof.
  intros R Hq Hs Hsel out. subst out. name_run out E.
  unfold handleAmountChange, setSwapCost in E.
  use_reachesRouter R.
  destruct (exactIn s) eqn:Ex;
    exec E; subst out; norm_goal;
    repeat split; discriminate.
Qed.


Lemma HIGH_PRICE_IMPACT_THRESHOLD_value :
  HIGH_PRICE_IMPACT_THRESHOLD = S754_finite false 7205759403792794 (-57).
Proof. vm_compute. reflexivity. Qed.




(** ** The high price impact flag *)

(** A recomputation that completes after a quote of the routing engine
    sets the flag to the comparison of the new price impact with the
    threshold; a recomputation that makes no quote leaves the flag as it
    was. *)
Lemma flag_after_recomputation (W : World) (o : oracle) (s : Sor) :
  let out := run o (handleAmountChange W) s in
  (value out = Ok tt ->
   existsb is_getBestSwap (trace out) = true ->
   highPriceImpact (final out)
   = JS.geb (priceImpact (final out)) HIGH_PRICE_IMPACT_THRESHOLD) /\
  (existsb is_getBestSwap (trace out) = false ->
   highPriceImpact (final out) = highPriceImpact s).
Proof.
  intro out. subst out. name_run out E.
  unfold handleAmountChange, resetInputAmounts, setSwapCost, adjustedPiAmount in E.
  exec E; subst out; norm_goal;
    (split; intros; first [discriminate | reflexivity]).
Qed.

(** C4 as stated does not hold.  A quote with an impact of 0.25 raises the
    flag; the user clears the amount; the recomputation resets the price
    impact to 0 and returns before the flag is touched, so the flag is
    still set with an impact below the threshold. *)
Lemma flag_stale_after_reset :
  ~ (forall (W : World) (o : oracle) (s : Sor),
       let out := run o (handleAmountChange W) s in
       value out = Ok tt -> flagTracksImpact (final out)).
Proof.
  intro H.
  specialize (H Demo.world Demo.answers Demo.clearedAfterWarning).
  cbv zeta in H.
  assert (Hv : value (run Demo.answers (handleAmountChange Demo.world)
                        Demo.clearedAfterWarning) = Ok tt)
    by (vm_compute; reflexivity).
  destruct (H Hv) as [H1 _].
  assert (Hset : highPriceImpact
                   (final (run Demo.answers (handleAmountChange Demo.world)
                             Demo.clearedAfterWarning)) = true)
    by (vm_compute; reflexivity).
  specialize (H1 Hset). vm_compute in H1. discriminate H1.
Qed.

(** C4, amended. After a recomputation that completes, if the routing
    engine was asked for a quote the flag is set exactly when the new
    price impact is at or above 0.05 (0.05 itself included); if it was
    not asked, the flag is what it was before. *)
Theorem high_impact_flag (W : World) (o : oracle) (s : Sor) :
  let out := run o (handleAmountChange W) s in
  value out = Ok tt ->
  (existsb is_getBestSwap (trace out) = true ->
   flagTracksImpact (final out)) /\
  (existsb is_getBestSwap (trace out) = false ->
   highPriceImpact (final out) = highPriceImpact s).
Proof.
  intros out Hv.
  destruct (flag_after_recomputation W o s) as [Hq Hn].
  fold out in Hq, Hn.
  split.
  - intro Ht. unfold flagTracksImpact. rewrite (Hq Hv Ht). tauto.
  - exact Hn.
Qed.

(** The threshold is inclusive: an impact of exactly 0.05 is flagged, the
    largest 18-decimal impact below it is not. *)
Example threshold_inclusive :
  JS.geb (reportedImpact 50000000000000000) HIGH_PRICE_IMPACT_THRESHOLD = true /\
  JS.geb (reportedImpact 49999999999999999) HIGH_PRICE_IMPACT_THRESHOLD = false.
Proof. vm_compute. split; reflexivity. Qed.

(** The floor at work: small, zero and negative computed impacts are all
    reported as 0.0001; larger ones are reported as computed. *)
Example floor_examples :
  reportedImpact 99999999999999 = MIN_PRICE_IMPACT /\
  reportedImpact 0 = MIN_PRICE_IMPACT /\
  reportedImpact (-250000000000000000) = MIN_PRICE_IMPACT /\
  reportedImpact 200000000000000 = JS.Number "0.0002".
Proof. vm_compute. repeat split; reflexivity. Qed.

(** ** Slippage limits *)



(** ** Price impact arithmetic *)

(** C9. When the amount passed as [tokenAmount] is positive and the market
    spot price reads as a positive 18-decimal value, neither divisor of
    [calcPriceImpact] is zero: the call never fails with a division by
    zero, and with the token's decimals known it returns the impact. *)
Theorem calcPriceImpact_divisors_nonzero (d : option nat)
    (tokenAmount tokenAmountScaled : Z) (sr : SorReturn) (m : Z) :
  0 < tokenAmount ->
  marketSpScaled sr = Ok m ->
  0 < m ->
  BigNumber.isZero tokenAmount = false /\
  BigNumber.isZero m = false /\
  calcPriceImpact d tokenAmount tokenAmountScaled sr
    <> throwError "division-by-zero" /\
  (forall n, d = Some n ->
     calcPriceImpact d tokenAmount tokenAmountScaled sr
     = Ok (Z.quot (Z.quot (tokenAmountScaled * 10 ^ Z.of_nat n) tokenAmount
                     * 10 ^ 18) m - 10 ^ 18)).
Proof.
  intros Ht Hm Hpos. unfold marketSpScaled in Hm.
  assert (Zt : BigNumber.isZero tokenAmount = false)
    by (apply Z.eqb_neq; lia).
  assert (Zm : BigNumber.isZero m = false) by (apply Z.eqb_neq; lia).
  assert (E : forall n,
             calcPriceImpact (Some n) tokenAmount tokenAmountScaled sr
             = Ok (Z.quot (Z.quot (tokenAmountScaled * 10 ^ Z.of_nat n) tokenAmount
                             * 10 ^ 18) m - 10 ^ 18)).
  { intro n. unfold calcPriceImpact. cbn [BigNumber.pow10 rbind].
    unfold BigNumber.div. rewrite Zt. cbn [rbind]. rewrite Hm. cbn [rbind].
    rewrite Zm. reflexivity. }
  repeat split; try assumption.
  - destruct d as [n|].
    + rewrite E. discriminate.
    + unfold calcPriceImpact. cbn [BigNumber.pow10 rbind]. discriminate.
  - intros n ->. apply E.
Qed.

(** ** The trade quote *)

(** C10. A quote returned by [getQuote] reports both fees as the string
    "0"; when the scaled input amount was not supplied its maximum in is
    zero, and when the scaled output amount was not supplied its minimum
    out is zero. *)
Theorem getQuote_fees_zero (s : Sor) (q : TradeQuote) :
  getQuote s = Ok q ->
  feeAmountInToken q = "0" /\
  feeAmountOutToken q = "0" /\
  (tokenInAmountScaled s = None -> maximumInAmount q = 0) /\
  (tokenOutAmountScaled s = None -> minimumOutAmount q = 0).
Proof.
  unfold getQuote. intros H.
  destruct (tokenInAmountScaled s) as [vi|] eqn:Ei;
    destruct (tokenOutAmountScaled s) as [vo|] eqn:Eo;
    cbn [rbind] in H;
    repeat match type of H with
      | context [rbind ?x _] => destruct x eqn:?; cbn [rbind] in H
      end;
    try discriminate; injection H as <-; cbn;
    repeat split; intros; congruence.
Qed.

(** Without the two optional inputs [getQuote] always returns. *)
Lemma getQuote_without_scaled_amounts (s : Sor) :
  tokenInAmountScaled s = None ->
  tokenOutAmountScaled s = None ->
  getQuote s = Ok (mkTradeQuote "0" "0" 0 0).
Proof. intros Hi Ho. unfold getQuote. rewrite Hi, Ho. reflexivity. Qed.

(** ** Execution *)

(** Settles a leaf of [trade]: the failed submission is one of the calls
    of a known trace, and the oracle's answer to it is known. *)
Ltac pick_submission Hin Hsub :=
  cbn [In] in Hin;
  repeat (destruct Hin as [Hin | Hin];
          [ subst; cbn [is_submission] in Hsub; try discriminate Hsub | ]);
  try contradiction.

Ltac failed_submission :=
  let Hin := fresh "Hin" in
  let Hsub := fresh "Hsub" in
  let Ho := fresh "Ho" in
  intros Hin Hsub Ho;
  pick_submission Hin Hsub;
  match goal with
  | H1 : ?x = Ok _, H2 : ?x = Err _ |- _ =>
      rewrite H1 in H2; discriminate H2
  | H1 : ?x = Err _, H2 : ?x = Err _ |- _ =>
      rewrite H1 in H2; injection H2 as <-
  end;
  cbn [filter is_submission List.length message];
  repeat split; reflexivity.

(** C8. When the submission of an execution attempt throws (the wrap, the
    unwrap, the exact-in swap or the exact-out swap), [trade] itself
    returns normally, the message of the error is in [submissionError],
    [trading] and [confirming] are both false, and the trace holds that
    one submission only: nothing is submitted again. *)
Theorem submission_failure_recorded (W : World) (o : oracle) (s : Sor)
    (successCallback : bool) (c : call) (e : JsError) :
  let out := run o (trade W successCallback) s in
  In c (trace out) ->
  is_submission c = true ->
  o c = Err e ->
  value out = Ok tt /\
  submissionError (final out) = Some (message e) /\
  trading (final out) = false /\
  confirming (final out) = false /\
  List.length (filter is_submission (trace out)) = 1%nat.
Proof.
  intro out.
  assert (E : out = run o (trade W successCallback) s) by reflexivity.
  clearbody out.
  unfold trade, run in E.
  exec E; subst out; norm_goal; failed_submission.
Qed.

(** ** Stale results *)

Ltac adv :=
  cbn [advance resume awaited fst snd
       bind try_catch lift perform notify modify get
       negb orb andb WrapType_eqb
       set_tokenInAmountInput set_tokenOutAmountInput set_pools set_sorReturn
       set_trading set_confirming set_priceImpact set_latestTxHash
       set_highPriceImpact set_submissionError set_hasSwaps set_returnAmount
       exactIn tokenInAddressInput tokenInAmountInput tokenOutAddressInput
       tokenOutAmountInput wrapType tokenInAmountScaled tokenOutAmountScaled
       tokenIn tokenOut slippageBufferRate sorManager pools sorReturn trading
       confirming priceImpact latestTxHash poolsLoading highPriceImpact
       submissionError hasSwaps returnAmount marketSpNormalised result].

(** A batch simulation that settles after the route was
    replaced is dropped.  [updateTradeAmounts] parks on the query with the
    route it saw; resumed in a state whose route is another object, it
    finishes without a write. *)
Lemma stale_simulation_discarded (W : World) (o settled : oracle) (s s' : Sor) :
  sorManager s = true ->
  hasSwaps (sorReturn s) = true ->
  confirming s = false ->
  same_object (result (sorReturn s)) (result (sorReturn s')) = false ->
  exists p,
    advance o (updateTradeAmounts W) s = (s, Parked p) /\
    exists r, resume o settled p s' = (s', Finished r).
Proof.
  intros Hm Hs Hc Hsame.
  unfold updateTradeAmounts.
  adv. rewrite Hm, Hs, Hc. adv.
  eexists. split; [reflexivity|].
  adv.
  destruct (settled _) as [deltas|e]; adv.
  - rewrite Hsame. adv. eexists. reflexivity.
  - eexists. reflexivity.
Qed.

(** The quote path has no such guard.  An activation of
    [handleAmountChange] that reaches the routing engine parks on the
    cost parameters, then on the quote; when the quote settles with the
    route [sr], that route is stored and its amount shown on the derived
    side whatever the state [s2] has become in the meantime. *)
Lemma quote_applied_unconditionally (W : World) (o settled : oracle)
    (s : Sor) (a : Z) (sr : SorReturn) :
  reachesRouter W o s a ->
  settled (quoteQuery W s a) = Ok sr ->
  exists p1 p2,
    advance o (handleAmountChange W) s = (s, Parked p1) /\
    (forall s1, resume o o p1 s1 = (s1, Parked p2)) /\
    (forall s2,
       let s3 := fst (resume o settled p2 s2) in
       sorReturn s3 = sr /\
       (if exactIn s then tokenOutAmountInput s3 else tokenInAmountInput s3)
       = shownAmount W (returnAmount sr) (derivedDecimals W s)).
Proof.
  intros R Hq.
  use_reachesRouter R.
  unfold handleAmountChange, setSwapCost, adjustedPiAmount.
  adv.
  destruct (exactIn s) eqn:Ex;
    rewrite He, H0, Hin, Hout, Hw, Hm; adv; rewrite Hpd; adv;
    (eexists; eexists; split; [reflexivity|]; split;
     [ intro s1; adv; rewrite Hcost; adv; rewrite Hparse; adv; reflexivity
     | intro s2; adv; rewrite Hq; adv;
       destruct (hasSwaps sr); adv;
       [ destruct (isSameAddress W (tokenOutAddressInput s) (appNetwork_wstETH W)
                   && isMainnet W);
         adv; split; reflexivity
       | destruct (o SelectedPools); adv; split; reflexivity ] ]).
Qed.

(** C1 (violated by [handleAmountChange]). Quote A starts for the amount
    1, the user types 2 and quote B starts; B's route is applied and shown
    (4.0 for the 2 typed); then A's promise settles and A's route replaces
    B's: the amount typed is still 2, the route stored and the amount
    shown (2.0) are A's.  Both activations finish normally. *)
Theorem stale_quote_overwrites_newer :
  let afterB := schedule Demo.answers Demo.idle
                  (firstn 7 Demo.staleQuoteSchedule) in
  let afterA := schedule Demo.answers Demo.idle Demo.staleQuoteSchedule in
  (editedAmount (store afterB) = "2" /\
   sorReturn (store afterB) = Demo.routeFor (2 * 10 ^ 18) /\
   derivedAmount (store afterB) = "4.0") /\
  (activations afterA = [Finished (Ok tt); Finished (Ok tt)] /\
   editedAmount (store afterA) = "2" /\
   sorReturn (store afterA) = Demo.routeFor (1 * 10 ^ 18) /\
   derivedAmount (store afterA) = "2.0").
Proof. vm_compute. repeat split. Qed.

(** * The theorems at work *)

Lemma zero_amount_short_circuit_witness :
  let out := run Demo.answers (handleAmountChange Demo.world)
               Demo.clearedAfterWarning in
  trace out = [] /\
  tokenOutAmountInput (final out) = editedAmount Demo.clearedAfterWarning.
Proof.
  intro out.
  destruct (zero_amount_short_circuit Demo.world Demo.answers
              Demo.clearedAfterWarning)
    as (_ & Ht & _ & _ & Hd & _).
  - left. vm_compute. reflexivity.
  - split; [exact Ht | exact Hd].
Defined.


Lemma reachesRouter_demo (o : oracle) :
  o HasPoolData = Ok true ->
  o (costQuery Demo.world Demo.idle) = Ok tt ->
  reachesRouter Demo.world o Demo.idle (10 ^ 18).
Proof.
  intros Hp Hc. unfold reachesRouter.
  repeat split; try discriminate; try assumption.
Defined.

Lemma no_route_impact_zero_witness :
  priceImpact (final (run Demo.noRoute (handleAmountChange Demo.world) Demo.idle))
  = JS.zero.
Proof.
  destruct (no_route_impact_zero Demo.world Demo.noRoute Demo.idle (10 ^ 18)
              initialSorReturn [])
    as (_ & _ & Hp & _).
  - apply reachesRouter_demo; reflexivity.
  - reflexivity.
  - reflexivity.
  - reflexivity.
  - exact Hp.
Defined.


Lemma high_impact_flag_witness :
  flagTracksImpact
    (final (run Demo.answers (handleAmountChange Demo.world) Demo.idle)).
Proof.
  destruct (high_impact_flag Demo.world Demo.answers Demo.idle) as [Hq _].
  - vm_compute. reflexivity.
  - apply Hq. vm_compute. reflexivity.
Defined.


Lemma submission_failure_recorded_witness :
  let out := run Demo.declined (trade Demo.world false) Demo.quoted in
  submissionError (final out) = Some "user rejected transaction" /\
  trading (final out) = false /\
  confirming (final out) = false.
Proof.
  intro out.
  destruct (submission_failure_recorded Demo.world Demo.declined Demo.quoted
              false
              (SwapIn (sorReturn Demo.quoted) 2000000000000000000 3960396)
              (mkError "user rejected transaction"))
    as (_ & He & Ht & Hc & _).
  - vm_compute. right. left. reflexivity.
  - reflexivity.
  - reflexivity.
  - split; [exact He | split; [exact Ht | exact Hc]].
Defined.

Lemma calcPriceImpact_divisors_nonzero_witness :
  calcPriceImpact (Some 6%nat) 2000000 (10 ^ 18) (Demo.routeFor (10 ^ 18))
  = Ok 0.
Proof.
  destruct (calcPriceImpact_divisors_nonzero (Some 6%nat) 2000000 (10 ^ 18)
              (Demo.routeFor (10 ^ 18)) 500000000000000000)
    as (_ & _ & _ & H).
  - reflexivity.
  - vm_compute. reflexivity.
  - reflexivity.
  - exact (H 6%nat eq_refl).
Defined.

Lemma getQuote_fees_zero_witness :
  feeAmountInToken (mkTradeQuote "0" "0" 0 0) = "0" /\
  maximumInAmount (mkTradeQuote "0" "0" 0 0) = 0.
Proof.
  destruct (getQuote_fees_zero Demo.idle (mkTradeQuote "0" "0" 0 0))
    as (Hf & _ & Hm & _).
  - reflexivity.
  - split; [exact Hf | exact (Hm eq_refl)].
Defined.

(** * Further properties

    ** The simulation of the stored route *)

Lemma simulationOpen_true (s : Sor) :
  simulationOpen s = true ->
  sorManager s = true /\ hasSwaps (sorReturn s) = true /\ confirming s = false.
Proof.
  unfold simulationOpen.
  destruct (sorManager s), (hasSwaps (sorReturn s)), (confirming s);
    cbn; intro H; try discriminate H; repeat split.
Qed.

(** X2. [updateTradeAmounts] asks the vault exactly when there is a
    routing engine, the stored route has swaps and no confirmation is
    pending; it then makes that one query (for the stored route, in the
    direction of the edited side) and no other call.  When the gate is
    closed it returns at once and the state is the one it started in. *)
Theorem simulation_gate (W : World) (o : oracle) (s : Sor) :
  let out := run o (updateTradeAmounts W) s in
  trace out = (if simulationOpen s then [simulationQuery s] else []) /\
  (simulationOpen s = false -> final out = s /\ value out = Ok tt).
Proof.
  intro out. subst out. name_run out E.
  unfold updateTradeAmounts in E.
  unfold simulationOpen, simulationQuery.
  destruct (sorManager s) eqn:Hm; destruct (hasSwaps (sorReturn s)) eqn:Hs;
    destruct (confirming s) eqn:Hc;
    exec E; subst out; norm_goal;
    (split; [reflexivity | intro H; first [discriminate H | split; reflexivity]]).
Qed.

(** X3. Whatever the vault answers, a run of [updateTradeAmounts]
    changes nothing but the amount of the derived side: the state it
    ends in is the state it started in, or that state with a new derived
    amount.  The edited amount, the route, the price impact and the
    flags are never written. *)
Theorem simulation_writes_derived_only (W : World) (o : oracle) (s : Sor) :
  let out := run o (updateTradeAmounts W) s in
  final out = s \/ exists v, final out = set_derivedAmount v s.
Proof.
  intro out. subst out. name_run out E.
  unfold updateTradeAmounts in E.
  unfold set_derivedAmount.
  exec E; subst out; norm_goal;
    first [ left; reflexivity
          | right; eexists;
            try match goal with H : exactIn s = _ |- _ => rewrite H end;
            reflexivity ].
Qed.

(** X4. The simulated amounts of both tokens are read before either is
    shown.  When the vault has answered with two deltas or more and one
    of the two tokens is not among the addresses of the stored route,
    [updateTradeAmounts] rejects and writes nothing, also when the
    missing token is on the edited side, whose delta would not have
    been shown. *)
Theorem simulation_needs_both_tokens (W : World) (o : oracle) (s : Sor)
    (deltas : list string) :
  simulationOpen s = true ->
  o (simulationQuery s) = Ok deltas ->
  (2 <= List.length deltas)%nat ->
  indexOf (routeAddress W (tokenInAddressInput s))
    (tokenAddresses (result (sorReturn s))) = None \/
  indexOf (routeAddress W (tokenOutAddressInput s))
    (tokenAddresses (result (sorReturn s))) = None ->
  let out := run o (updateTradeAmounts W) s in
  final out = s /\ exists e, value out = Err e.
Proof.
  intros Hopen Hq Hlen Hmiss out. subst out. name_run out E.
  apply simulationOpen_true in Hopen. destruct Hopen as (Hm & Hs & Hc).
  unfold simulationQuery in Hq. unfold routeAddress in Hmiss.
  apply Nat.leb_le in Hlen.
  assert (Hsame : same_object (result (sorReturn s)) (result (sorReturn s))
                  = true) by apply Nat.eqb_refl.
  unfold updateTradeAmounts in E.
  destruct Hmiss as [Hi | Hi];
    match type of Hi with
    | ?i = None =>
        assert (Hd : rbind (BigNumber.from (element deltas i))
                       (fun v => Ok (BigNumber.abs v))
                     = Err (mkError "invalid BigNumber value"))
          by (rewrite Hi; reflexivity)
    end;
    clear Hi;
    exec E; subst out; norm_goal;
    (split; [reflexivity | eexists; reflexivity]).
Qed.

(** X5. Once the query is in flight the gate is not looked at again.
    When the vault's answer settles in a state whose route is still the
    same object, the simulated amount is written to the derived side
    (the side that was derived when the query was made, with the
    decimals of the token selected now), whether or not a confirmation
    has started or the route has lost its swaps in the meantime.  The
    amount shown is the magnitude of the delta; a zero delta shows the
    empty string. *)
Theorem simulation_applied_late (W : World) (o settled : oracle) (s s' : Sor)
    (deltas : list string) (vIn vOut : Z) :
  simulationOpen s = true ->
  same_object (result (sorReturn s)) (result (sorReturn s')) = true ->
  settled (simulationQuery s) = Ok deltas ->
  (2 <= List.length deltas)%nat ->
  deltaOf W (result (sorReturn s)) deltas (tokenInAddressInput s') = Ok vIn ->
  deltaOf W (result (sorReturn s)) deltas (tokenOutAddressInput s') = Ok vOut ->
  exists p,
    advance o (updateTradeAmounts W) s = (s, Parked p) /\
    resume o settled p s'
    = ((if exactIn s
        then set_tokenOutAmountInput
               (shownAmount W vOut (getTokenDecimals W (tokenOutAddressInput s')))
               s'
        else set_tokenInAmountInput
               (shownAmount W vIn (getTokenDecimals W (tokenInAddressInput s')))
               s'),
       Finished (Ok tt)).
Proof.
  intros Hopen Hsame Hq Hlen Hin Hout.
  apply simulationOpen_true in Hopen. destruct Hopen as (Hm & Hs & Hc).
  unfold simulationQuery in Hq. unfold deltaOf, routeAddress in Hin, Hout.
  apply Nat.leb_le in Hlen.
  unfold updateTradeAmounts.
  adv. rewrite Hm, Hs, Hc. adv.
  eexists. split; [reflexivity|].
  adv. rewrite Hq. adv. rewrite Hsame. adv. rewrite Hlen.
  rewrite Hin. adv. rewrite Hout. adv.
  destruct (exactIn s); adv; reflexivity.
Qed.

Lemma stale_simulation_discarded_witness :
  exists p,
    advance Demo.answers (updateTradeAmounts Demo.world) Demo.quoted
    = (Demo.quoted, Parked p) /\
    exists r, resume Demo.answers Demo.answers p Scenes.requoted
              = (Scenes.requoted, Finished r).
Proof.
  apply (stale_simulation_discarded Demo.world Demo.answers Demo.answers
           Demo.quoted Scenes.requoted);
    vm_compute; reflexivity.
Defined.

Lemma simulation_needs_both_tokens_witness :
  let out := run Demo.answers (updateTradeAmounts Demo.world) Scenes.detour in
  final out = Scenes.detour /\ exists e, value out = Err e.
Proof.
  apply (simulation_needs_both_tokens Demo.world Demo.answers Scenes.detour
           ["1000000000000000000"; "-1990000"]).
  - vm_compute. reflexivity.
  - reflexivity.
  - cbn. lia.
  - left. vm_compute. reflexivity.
Defined.

Lemma simulation_applied_late_witness :
  exists p,
    advance Demo.answers (updateTradeAmounts Demo.world) Demo.quoted
    = (Demo.quoted, Parked p) /\
    tokenOutAmountInput
      (fst (resume Demo.answers Demo.answers p Scenes.awaitingWallet))
    = "1.99".
Proof.
  destruct (simulation_applied_late Demo.world Demo.answers Demo.answers
              Demo.quoted Scenes.awaitingWallet
              ["1000000000000000000"; "-1990000"]
              1000000000000000000 1990000) as (p & Ha & Hr).
  - vm_compute. reflexivity.
  - vm_compute. reflexivity.
  - reflexivity.
  - cbn. lia.
  - vm_compute. reflexivity.
  - vm_compute. reflexivity.
  - exists p. split; [exact Ha|]. rewrite Hr. vm_compute. reflexivity.
Defined.

(** ** The quote recomputation *)

Lemma WrapType_eqb_eq (a b : WrapType) : WrapType_eqb a b = true -> a = b.
Proof. destruct a, b; cbn; intro H; first [reflexivity | discriminate H]. Qed.

(** X6. A quote recomputation never changes what the user entered:
    whatever the collaborators answer, and whether it returns or
    rejects, the edited amount, the direction, the two token addresses
    and the wrap kind are those it started with, and so are the
    submission fields ([trading], [confirming], [submissionError],
    [latestTxHash]). *)
Theorem quote_keeps_inputs (W : World) (o : oracle) (s : Sor) :
  let out := run o (handleAmountChange W) s in
  editedAmount (final out) = editedAmount s /\
  exactIn (final out) = exactIn s /\
  tokenInAddressInput (final out) = tokenInAddressInput s /\
  tokenOutAddressInput (final out) = tokenOutAddressInput s /\
  wrapType (final out) = wrapType s /\
  trading (final out) = trading s /\
  confirming (final out) = confirming s /\
  submissionError (final out) = submissionError s /\
  latestTxHash (final out) = latestTxHash s.
Proof.
  intro out. subst out. name_run out E.
  unfold handleAmountChange in E.
  unfold editedAmount.
  exec E; subst out; norm_goal;
    try match goal with H : exactIn s = _ |- _ => rewrite H end;
    (split; [ try reflexivity; destruct (exactIn s); reflexivity
            | repeat split; reflexivity ]).
Qed.

(** X7. The routing engine is asked for a quote only by an intent that
    reaches it, and only once: if a run of [handleAmountChange] makes a
    quote call, the edited amount is neither empty nor zero, both
    tokens are set, the pair is not a wrap, pool data is at hand, the
    edited amount is readable at the decimals of its token, and the run
    has first asked for pool data and then told the engine the cost of
    the derived token, in this order, before the one quote call. *)
Theorem quote_protocol (W : World) (o : oracle) (s : Sor) :
  let out := run o (handleAmountChange W) s in
  existsb is_getBestSwap (trace out) = true ->
  exists a rest,
    reachesRouter W o s a /\
    trace out = HasPoolData :: costQuery W s :: quoteQuery W s a :: rest /\
    routerUntouched rest.
Proof.
  intro out. subst out. name_run out E.
  unfold handleAmountChange in E.
  unfold reachesRouter, routerUntouched, editedAmount, editedDecimals,
    costQuery, quoteQuery, costToken, derivedDecimals.
  exec E; subst out; norm_goal; intro Hr; try discriminate Hr;
    cbv iota in *;
    repeat match goal with
           | H : String.eqb _ _ = false |- _ => apply String.eqb_neq in H
           | H : WrapType_eqb _ _ = true |- _ => apply WrapType_eqb_eq in H
           end;
    eexists; eexists;
    repeat match goal with |- _ /\ _ => split end;
    first [ eassumption | reflexivity
          | match goal with |- Ok ?u = Ok tt => destruct u; reflexivity end ].
Qed.

(** X8. A non-zero amount on a pair that cannot be quoted clears the
    derived amount and does nothing else.  When a token address is
    empty the run makes no call at all (the wrap kind is not looked
    at); on a non-wrap pair without a routing engine, or whose engine
    reports no pool data, the only call is that question.  The run
    returns normally, and the price impact, the stored route and the
    flag stay as they were. *)
Theorem unquotable_clears_derived (W : World) (o : oracle) (s : Sor) :
  editedAmount s <> "" ->
  editedAmount s <> "0" ->
  tokenInAddressInput s = "" \/ tokenOutAddressInput s = "" \/
  (wrapType s = NonWrap /\
   (sorManager s = false \/ o HasPoolData = Ok false)) ->
  let out := run o (handleAmountChange W) s in
  value out = Ok tt /\
  final out = set_derivedAmount "" s /\
  (trace out = [] \/ trace out = [HasPoolData]).
Proof.
  intros He H0 Hg out. subst out. name_run out E.
  unfold handleAmountChange in E.
  unfold editedAmount, set_derivedAmount in *.
  apply eqb_false_of_neq in He, H0.
  destruct (String.eqb (tokenInAddressInput s) "") eqn:Ei;
    destruct (String.eqb (tokenOutAddressInput s) "") eqn:Eo;
    try (exec E; subst out; norm_goal;
         repeat match goal with |- _ /\ _ => split end;
         first [reflexivity | left; reflexivity]).
  destruct Hg as [Hg | [Hg | [Hw Hg]]].
  - rewrite Hg in Ei. discriminate Ei.
  - rewrite Hg in Eo. discriminate Eo.
  - destruct Hg as [Hm | Hp];
      exec E; subst out; norm_goal;
      repeat match goal with |- _ /\ _ => split end;
      first [reflexivity | left; reflexivity | right; reflexivity
            | match goal with H : Ok _ = Ok _ |- _ => discriminate H end ].
Qed.

(** X9. A quote whose price impact cannot be computed is left half
    applied.  On the routed path, when the routing engine has answered
    with a route that has swaps and [calcPriceImpact] throws, the run
    rejects with that error after the route has been stored and its
    amount shown on the derived side; the price impact, the flag and
    the pools are those of the previous quote, and the pools are not
    asked for. *)
Theorem impact_failure_half_applied (W : World) (o : oracle) (s : Sor) (a : Z)
    (sr : SorReturn) (adj : Z) (e : JsError) :
  reachesRouter W o s a ->
  o (quoteQuery W s a) = Ok sr ->
  hasSwaps sr = true ->
  adjustsTo W o (returnAmount sr) (tokenOutAddressInput s) adj ->
  calcPriceImpact (derivedDecimals W s) adj a sr = Err e ->
  let out := run o (handleAmountChange W) s in
  value out = Err e /\
  sorReturn (final out) = sr /\
  derivedAmount (final out)
  = shownAmount W (returnAmount sr) (derivedDecimals W s) /\
  priceImpact (final out) = priceImpact s /\
  highPriceImpact (final out) = highPriceImpact s /\
  pools (final out) = pools s /\
  ~ In SelectedPools (trace out).
Proof.
  intros R Hq Hs Hadj Hcalc out. subst out. name_run out E.
  unfold handleAmountChange, setSwapCost, adjustedPiAmount in E.
  unfold adjustsTo in Hadj. unfold derivedAmount.
  use_reachesRouter R.
  destruct (exactIn s) eqn:Ex;
    destruct (isSameAddress W (tokenOutAddressInput s) (appNetwork_wstETH W))
      eqn:Ea;
    destruct (isMainnet W) eqn:Em;
    cbn [andb] in Hadj; try subst adj;
    exec E; subst out; norm_goal; rewrite ?Ex;
    repeat match goal with |- _ /\ _ => split end;
    try reflexivity;
    cbn [In]; intro Hsel;
    repeat (destruct Hsel as [Hsel | Hsel]; [discriminate Hsel|]);
    exact Hsel.
Qed.

(** X10. A wrap quote that fails leaves the previous quote on display.
    On a wrap or unwrap pair, when the edited amount does not read at
    the decimals of its token (an unknown token has none, so an amount
    with a fraction does not read), the run rejects without a call;
    when the Wrap Adapter rejects, it rejects after that one call.  In
    both cases the derived amount, the stored route and the price
    impact are those from before. *)
Theorem wrap_failure_keeps_previous (W : World) (o : oracle) (s : Sor)
    (e : JsError) :
  editedAmount s <> "" ->
  editedAmount s <> "0" ->
  tokenInAddressInput s <> "" ->
  tokenOutAddressInput s <> "" ->
  wrapType s <> NonWrap ->
  Fixed.parseFixed (editedAmount s) (editedDecimals W s) = Err e \/
  (exists a, Fixed.parseFixed (editedAmount s) (editedDecimals W s) = Ok a /\
             o (wrapQuery s a) = Err e) ->
  let out := run o (handleAmountChange W) s in
  value out = Err e /\
  derivedAmount (final out) = derivedAmount s /\
  sorReturn (final out) = sorReturn s /\
  priceImpact (final out) = priceImpact s /\
  (List.length (trace out) <= 1)%nat.
Proof.
  intros He H0 Hin Hout Hw Hf out. subst out. name_run out E.
  unfold handleAmountChange in E.
  unfold editedAmount, editedDecimals, derivedAmount, wrapQuery, wrapperOf in *.
  apply eqb_false_of_neq in He, H0, Hin, Hout.
  assert (Hn : WrapType_eqb (wrapType s) NonWrap = false)
    by (destruct (wrapType s);
        first [reflexivity | exfalso; apply Hw; reflexivity]).
  destruct (exactIn s) eqn:Ex;
    (destruct Hf as [Hp | (a & Hp & Hq)];
     [ exec E; subst out; norm_goal; rewrite ?Ex;
       repeat match goal with |- _ /\ _ => split end;
       first [reflexivity | cbn; lia]
     | destruct (wrapType s) eqn:Ew;
       try (exfalso; apply Hw; reflexivity);
       cbn [WrapType_eqb] in *;
       exec E; subst out; norm_goal; rewrite ?Ex;
       repeat match goal with |- _ /\ _ => split end;
       first [reflexivity | cbn; lia] ]).
Qed.

(** X11. The stETH conversion is asked for only on the main network
    and only when the output token is wstETH, and then for the amount
    of a route with swaps that the routing engine has just returned;
    it is always asked in the wrapping direction.  The address looked
    at is the output token's in both directions of the trade. *)
Theorem conversion_only_for_wstETH (W : World) (o : oracle) (s : Sor)
    (amt : Z) (isWrap : bool) :
  let out := run o (handleAmountChange W) s in
  In (ConvertStEthWrap amt isWrap) (trace out) ->
  isMainnet W = true /\
  isSameAddress W (tokenOutAddressInput s) (appNetwork_wstETH W) = true /\
  isWrap = true /\
  exists a sr,
    o (quoteQuery W s a) = Ok sr /\ hasSwaps sr = true /\
    amt = returnAmount sr.
Proof.
  intro out. subst out. name_run out E.
  unfold handleAmountChange in E.
  unfold quoteQuery.
  exec E; subst out; norm_goal; cbn [In]; intro Hin;
    repeat (destruct Hin as [Hin | Hin];
            [ first [ discriminate Hin
                    | injection Hin as <- <- ] | ]);
    try contradiction;
    repeat match goal with |- _ /\ _ => split end;
    try assumption; try reflexivity;
    eexists; eexists;
    repeat match goal with |- _ /\ _ => split end;
    first [ eassumption | reflexivity ].
Qed.

(** ** The arithmetic of the price impact and of the slippage limits *)

(** X12. [calcPriceImpact] throws "division-by-zero" exactly on a zero
    divisor.  With the token's decimals known, a token amount of zero
    throws whatever the market price is; with the market price read as
    [m], the computation throws that error if and only if the token
    amount or [m] is zero.  The market price ["0"] of the initial route
    is such a case. *)
Theorem calcPriceImpact_zero_divisor (n : nat)
    (tokenAmount tokenAmountScaled : Z) (sr : SorReturn) (m : Z) :
  marketSpScaled sr = Ok m ->
  (calcPriceImpact (Some n) 0 tokenAmountScaled sr
   = throwError "division-by-zero") /\
  (calcPriceImpact (Some n) tokenAmount tokenAmountScaled sr
   = throwError "division-by-zero"
   <-> tokenAmount = 0 \/ m = 0).
Proof.
  intro Hm. unfold marketSpScaled in Hm.
  split; [reflexivity|].
  unfold calcPriceImpact. cbn [BigNumber.pow10 rbind].
  unfold BigNumber.div at 1. unfold BigNumber.isZero.
  destruct (tokenAmount =? 0) eqn:Et.
  - apply Z.eqb_eq in Et. split; [intros _; left; exact Et | reflexivity].
  - apply Z.eqb_neq in Et. cbn [rbind]. rewrite Hm. cbn [rbind].
    unfold BigNumber.div, BigNumber.isZero.
    destruct (m =? 0) eqn:Em.
    + apply Z.eqb_eq in Em. split; [intros _; right; exact Em | reflexivity].
    + apply Z.eqb_neq in Em. cbn [rbind].
      split; [discriminate | intros [H | H]; contradiction].
Qed.

(** X13. For amounts that are not negative and a positive market price
    the price impact is never below -1 (in 18-decimal fixed point), and
    it does not grow with the token amount: for the same scaled amount
    on the other side, a larger token amount gives an impact that is
    smaller or equal. *)
Theorem calcPriceImpact_antitone (n : nat) (ta ta' tas : Z) (sr : SorReturn)
    (m : Z) :
  0 <= tas ->
  0 < ta <= ta' ->
  marketSpScaled sr = Ok m ->
  0 < m ->
  exists c c',
    calcPriceImpact (Some n) ta tas sr = Ok c /\
    calcPriceImpact (Some n) ta' tas sr = Ok c' /\
    - 10 ^ 18 <= c' <= c.
Proof.
  intros Hs Ht Hm Hpos. unfold marketSpScaled in Hm.
  assert (E : forall t, 0 < t ->
             calcPriceImpact (Some n) t tas sr
             = Ok (Z.quot (Z.quot (tas * 10 ^ Z.of_nat n) t * 10 ^ 18) m
                   - 10 ^ 18)).
  { intros t Hp. unfold calcPriceImpact. cbn [BigNumber.pow10 rbind].
    unfold BigNumber.div, BigNumber.isZero.
    replace (t =? 0) with false by (symmetry; apply Z.eqb_neq; lia).
    cbn [rbind]. rewrite Hm. cbn [rbind].
    replace (m =? 0) with false by (symmetry; apply Z.eqb_neq; lia).
    reflexivity. }
  eexists. eexists.
  split; [apply E; lia|]. split; [apply E; lia|].
  assert (Hp : 0 <= tas * 10 ^ Z.of_nat n)
    by (apply Z.mul_nonneg_nonneg; [lia | apply Z.pow_nonneg; lia]).
  assert (H1 : 0 <= Z.quot (tas * 10 ^ Z.of_nat n) ta')
    by (apply Z.quot_pos; lia).
  assert (H2 : Z.quot (tas * 10 ^ Z.of_nat n) ta'
               <= Z.quot (tas * 10 ^ Z.of_nat n) ta)
    by (apply Z.quot_le_compat_l; lia).
  assert (H3 : 0 <= Z.quot (Z.quot (tas * 10 ^ Z.of_nat n) ta' * 10 ^ 18) m)
    by (apply Z.quot_pos; lia).
  assert (H4 : Z.quot (Z.quot (tas * 10 ^ Z.of_nat n) ta' * 10 ^ 18) m
               <= Z.quot (Z.quot (tas * 10 ^ Z.of_nat n) ta * 10 ^ 18) m)
    by (apply Z.quot_le_mono; lia).
  lia.
Qed.

(** X14. With a slippage factor of at least 1 (a buffer rate that is
    not negative) the two limits bracket the amount: the minimum
    accepted for an output is at most the amount, the maximum offered
    for an input is at least the amount, and applying the maximum to
    the minimum does not exceed the amount.  At a factor of exactly 1
    both limits are the amount itself. *)
Theorem slippage_bracket (s : Sor) (amount f : Z) :
  0 <= amount ->
  slippageFactor s = Ok f ->
  10 ^ 18 <= f ->
  exists lo hi back,
    getMinOut s amount = Ok lo /\
    getMaxIn s amount = Ok hi /\
    getMaxIn s lo = Ok back /\
    0 <= lo <= amount /\ amount <= hi /\ back <= amount /\
    (f = 10 ^ 18 -> lo = amount /\ hi = amount).
Proof.
  intros Ha Hf Hge.
  assert (Hmin : forall x, getMinOut s x = Ok (Z.quot (x * 10 ^ 18) f)).
  { intro x. unfold getMinOut. rewrite Hf. cbn [rbind].
    unfold BigNumber.div, BigNumber.isZero, BigNumber.mul, BigNumber.ONE.
    replace (f =? 0) with false by (symmetry; apply Z.eqb_neq; lia).
    reflexivity. }
  assert (Hmax : forall x, getMaxIn s x = Ok (Z.quot (x * f) (10 ^ 18))).
  { intro x. unfold getMaxIn. rewrite Hf. cbn [rbind].
    unfold BigNumber.div, BigNumber.isZero, BigNumber.mul, BigNumber.ONE.
    change (10 ^ 18 =? 0) with false. reflexivity. }
  exists (Z.quot (amount * 10 ^ 18) f), (Z.quot (amount * f) (10 ^ 18)),
    (Z.quot (Z.quot (amount * 10 ^ 18) f * f) (10 ^ 18)).
  split; [apply Hmin|]. split; [apply Hmax|]. split; [apply Hmax|].
  assert (Hlo : 0 <= Z.quot (amount * 10 ^ 18) f) by (apply Z.quot_pos; lia).
  assert (Hle : Z.quot (amount * 10 ^ 18) f * f <= amount * 10 ^ 18).
  { rewrite Z.mul_comm. apply Z.mul_quot_le; lia. }
  assert (Hup : Z.quot (amount * 10 ^ 18) f <= amount).
  { rewrite <- (Z.quot_mul amount (10 ^ 18)) at 2 by lia.
    apply Z.quot_le_compat_l; lia. }
  assert (Hhi : amount <= Z.quot (amount * f) (10 ^ 18)).
  { rewrite <- (Z.quot_mul amount (10 ^ 18)) at 1 by lia.
    apply Z.quot_le_mono; [lia|]. apply Z.mul_le_mono_nonneg_l; lia. }
  assert (Hback : Z.quot (Z.quot (amount * 10 ^ 18) f * f) (10 ^ 18) <= amount).
  { rewrite <- (Z.quot_mul amount (10 ^ 18)) at 2 by lia.
    apply Z.quot_le_mono; lia. }
  repeat split; try assumption.
  - subst f. apply Z.quot_mul. lia.
  - subst f. apply Z.quot_mul. lia.
Qed.

(** ** The submission *)

Lemma getQuote_ext (s1 s2 : Sor) :
  tokenInAmountScaled s1 = tokenInAmountScaled s2 ->
  tokenOutAmountScaled s1 = tokenOutAmountScaled s2 ->
  slippageBufferRate s1 = slippageBufferRate s2 ->
  getQuote s1 = getQuote s2.
Proof.
  intros Hi Ho Hr.
  unfold getQuote, getMaxIn, getMinOut, slippageFactor.
  rewrite Hi, Ho, Hr. reflexivity.
Qed.

Lemma onTxFailed_run (o : oracle) (s : Sor) :
  run o onTxFailed s = mkOutcome [] (set_trading false s) (Ok tt).
Proof. reflexivity. Qed.

Lemma onTxConfirmed_run (W : World) (o : oracle) (v : string)
    (tx : TransactionResponse) (s : Sor) :
  run o (onTxConfirmed W v tx) s
  = mkOutcome [TrackGoal Swapped (Some (or_zero (timesHundred W v)))]
      (set_latestTxHash (hash tx) (set_trading false s)) (Ok tt).
Proof. reflexivity. Qed.

(** X15. [trade] rejects only before anything is submitted, and then
    leaves the composable marked as busy.  If a run of [trade] rejects
    (a token that is not known, an amount that does not read at its
    decimals, a slippage limit that cannot be computed), the only call
    made is the click telemetry, no error is recorded, and [trading]
    and [confirming] are both still true. *)
Theorem trade_rejects_before_submission (W : World) (o : oracle) (s : Sor)
    (successCallback : bool) (e : JsError) :
  let out := run o (trade W successCallback) s in
  value out = Err e ->
  trace out = [TrackGoal ClickSwap None] /\
  trading (final out) = true /\
  confirming (final out) = true /\
  submissionError (final out) = None.
Proof.
  intro out.
  assert (E : out = run o (trade W successCallback) s) by reflexivity.
  clearbody out.
  unfold trade, run in E.
  exec E; subst out; norm_goal; intro Hv; try discriminate Hv;
    repeat split; reflexivity.
Qed.

(** X16. Whatever happens, a run of [trade] writes nothing but
    [trading], [confirming] and [submissionError]: the amounts, the
    route, the price impact and [latestTxHash] are those it started
    with. *)
Theorem trade_writes_flags_only (W : World) (o : oracle) (s : Sor)
    (successCallback : bool) :
  let out := run o (trade W successCallback) s in
  exists t c e,
    final out = set_submissionError e (set_confirming c (set_trading t s)).
Proof.
  intro out.
  assert (E : out = run o (trade W successCallback) s) by reflexivity.
  clearbody out.
  unfold trade, run in E.
  exec E; subst out; norm_goal;
    match goal with
    | |- exists t c e, ?F = _ =>
        exists (trading F), (confirming F), (submissionError F)
    end;
    norm_goal; reflexivity.
Qed.

(** Names the submission of a known trace and reads its answer. *)
Ltac answered_submission Hin Hsub Hh :=
  pick_submission Hin Hsub;
  cbn [responseHash] in Hh;
  match goal with
  | H1 : ?x = _, H2 : context [match ?x with _ => _ end] |- _ =>
      rewrite H1 in H2
  end;
  first [discriminate Hh | injection Hh as <-].

(** X17. Once a submission has been answered with a transaction,
    [trade] returns normally with [confirming] false and that one
    submission in the trace.  Either every step after it went through
    (the transaction is handed to the listener, no error is recorded
    and [trading] stays true until the listener reports back), or a
    later step threw (the quote, the transaction record, the listener,
    the success callback), and then its message is recorded as the
    submission error and [trading] is false, although the transaction
    was sent. *)
Theorem trade_after_submission (W : World) (o : oracle) (s : Sor)
    (successCallback : bool) (c : call) (h : string) :
  let out := run o (trade W successCallback) s in
  In c (trace out) ->
  is_submission c = true ->
  responseHash o c = Some h ->
  value out = Ok tt /\
  confirming (final out) = false /\
  List.length (filter is_submission (trace out)) = 1%nat /\
  ((submissionError (final out) = None /\ trading (final out) = true /\
    exists tx, hash tx = h /\ In (TxListener tx) (trace out)) \/
   (exists m, submissionError (final out) = Some m /\
              trading (final out) = false)).
Proof.
  intro out.
  assert (E : out = run o (trade W successCallback) s) by reflexivity.
  clearbody out.
  unfold trade, run in E.
  exec E; subst out; norm_goal; intros Hin Hsub Hh;
    answered_submission Hin Hsub Hh;
    cbn [filter is_submission List.length];
    (split; [reflexivity|]); (split; [reflexivity|]); (split; [reflexivity|]);
    first [ right; eexists; split; reflexivity
          | left; split; [reflexivity|]; split; [reflexivity|];
            eexists; split; [reflexivity|];
            cbn [In]; repeat first [left; reflexivity | right] ].
Qed.

(** X18. A transaction is recorded only for a submission that was
    answered, and the record describes the trade as it stands: if
    [addTransaction] is called, a submission earlier in the run was
    answered with a transaction whose hash is the record's id; the
    action is that of the wrap kind, the quote is the one [getQuote]
    computes for the state, and the amounts, the direction and the
    price impact are those of the state. *)
Theorem recorded_transaction (W : World) (o : oracle) (s : Sor)
    (successCallback : bool) (t : NewTransaction) :
  let out := run o (trade W successCallback) s in
  In (AddTransaction t) (trace out) ->
  (exists c, In c (trace out) /\ is_submission c = true /\
             responseHash o c = Some (tx_id t)) /\
  tx_action t = actionOf (wrapType s) /\
  getQuote s = Ok (d_quote (tx_details t)) /\
  d_tokenInAmount (tx_details t) = tokenInAmountInput s /\
  d_tokenOutAmount (tx_details t) = tokenOutAmountInput s /\
  d_exactIn (tx_details t) = exactIn s /\
  d_priceImpact (tx_details t) = priceImpact s.
Proof.
  intro out.
  assert (E : out = run o (trade W successCallback) s) by reflexivity.
  clearbody out.
  unfold trade, run in E.
  exec E; subst out; norm_goal; cbn [In]; intro Hin;
    repeat (destruct Hin as [Hin | Hin];
            [ first [discriminate Hin | injection Hin as <-] | ]);
    try contradiction;
    cbn [tx_id tx_action tx_details d_quote d_tokenInAmount d_tokenOutAmount
         d_exactIn d_priceImpact actionOf];
    (split;
     [ match goal with
       | H : o (WrapTx ?n ?w ?a) = Ok _ |- _ => exists (WrapTx n w a)
       | H : o (UnwrapTx ?n ?w ?a) = Ok _ |- _ => exists (UnwrapTx n w a)
       | H : o (SwapIn ?r ?a ?m) = Ok _ |- _ => exists (SwapIn r a m)
       | H : o (SwapOut ?r ?m ?a) = Ok _ |- _ => exists (SwapOut r m a)
       end;
       split; [repeat first [left; reflexivity | right]|];
       split; [reflexivity|];
       cbn [responseHash];
       match goal with
       | H : ?x = Ok _ |- context [match ?x with _ => _ end] => rewrite H
       end;
       reflexivity
     | split; [reflexivity|];
       split;
       [ match goal with
         | H : getQuote _ = Ok ?q |- _ = Ok ?q =>
             rewrite <- H; apply getQuote_ext; reflexivity
         end
       | repeat split; try reflexivity;
         match goal with H : exactIn s = _ |- _ => rewrite H; reflexivity end ] ]).
Qed.

(** X19. A trade and the report of its transaction.  After a run of
    [trade] that ended without a recorded error, the listener's failure
    callback leaves the state it all started in with the three
    submission fields cleared; the confirmation callback does the same
    and stores the hash of the confirmed transaction.  Nothing else of
    the state is touched by the whole exchange. *)
Theorem trade_then_report (W : World) (o : oracle) (s : Sor)
    (successCallback : bool) (v : string) (tx : TransactionResponse) :
  let out := run o (trade W successCallback) s in
  value out = Ok tt ->
  submissionError (final out) = None ->
  let cleared :=
    set_submissionError None (set_confirming false (set_trading false s)) in
  final (run o onTxFailed (final out)) = cleared /\
  final (run o (onTxConfirmed W v tx) (final out))
  = set_latestTxHash (hash tx) cleared.
Proof.
  intro out. rewrite onTxFailed_run, onTxConfirmed_run. cbn [final].
  assert (E : out = run o (trade W successCallback) s) by reflexivity.
  clearbody out.
  unfold trade, run in E.
  exec E; subst out; norm_goal; intros Hv He;
    try discriminate Hv; try discriminate He;
    cbv zeta; split; reflexivity.
Qed.

Lemma slippage_limits_ext (s1 s2 : Sor) (x : Z) :
  slippageBufferRate s1 = slippageBufferRate s2 ->
  getMinOut s1 x = getMinOut s2 x /\ getMaxIn s1 x = getMaxIn s2 x.
Proof.
  intro H. unfold getMinOut, getMaxIn, slippageFactor. rewrite H.
  split; reflexivity.
Qed.

(** X23. What is submitted is the trade as it stands.  Any submission
    a run of [trade] makes is for tokens that are both known and for
    the input amount read at the input token's decimals; it is the
    wrap of the output token's wrapper on a wrap pair, the unwrap of
    the input token's on an unwrap pair, and otherwise a swap along the
    stored route: exact-in with the minimum [getMinOut] gives for the
    shown output amount, exact-out with the maximum [getMaxIn] gives
    for the input amount. *)
Theorem submission_matches_intent (W : World) (o : oracle) (s : Sor)
    (successCallback : bool) (c : call) :
  let out := run o (trade W successCallback) s in
  In c (trace out) ->
  is_submission c = true ->
  exists tIn tOut a,
    getToken W (tokenInAddressInput s) = Some tIn /\
    getToken W (tokenOutAddressInput s) = Some tOut /\
    Fixed.parseFixed (tokenInAmountInput s) (Some (decimals tIn)) = Ok a /\
    match wrapType s with
    | Wrap => c = WrapTx (appNetwork_key W) (tokenOutAddressInput s) a
    | Unwrap => c = UnwrapTx (appNetwork_key W) (tokenInAddressInput s) a
    | NonWrap =>
        exists b lim,
          Fixed.parseFixed (tokenOutAmountInput s) (Some (decimals tOut))
          = Ok b /\
          if exactIn s
          then getMinOut s b = Ok lim /\ c = SwapIn (sorReturn s) a lim
          else getMaxIn s a = Ok lim /\ c = SwapOut (sorReturn s) lim b
    end.
Proof.
  intro out.
  assert (E : out = run o (trade W successCallback) s) by reflexivity.
  clearbody out.
  unfold trade, run in E.
  exec E; subst out; norm_goal; intros Hin Hsub;
    pick_submission Hin Hsub;
    eexists; eexists; eexists;
    (split; [reflexivity|]); (split; [reflexivity|]); (split; [eassumption|]);
    try reflexivity;
    eexists; eexists; (split; [eassumption|]);
    cbv iota; (split; [|reflexivity]);
    match goal with
    | H : getMinOut ?s' ?x = Ok ?l |- getMinOut s ?x = Ok ?l =>
        rewrite <- H; apply (slippage_limits_ext s s' x); reflexivity
    | H : getMaxIn ?s' ?x = Ok ?l |- getMaxIn s ?x = Ok ?l =>
        rewrite <- H; apply (slippage_limits_ext s s' x); reflexivity
    end.
Qed.

(** ** The active token lists *)

Section TokenListFacts.
Import TokenLists.

Lemma includes_In (l : list string) (x : string) :
  includes l x = true <-> In x l.
Proof.
  unfold includes. rewrite existsb_exists. split.
  - intros (y & Hy & E). apply String.eqb_eq in E. subst y. exact Hy.
  - intro H. exists x. split; [exact H | apply String.eqb_refl].
Qed.

Lemma includes_false (l : list string) (x : string) :
  includes l x = false <-> ~ In x l.
Proof.
  rewrite <- includes_In. destruct (includes l x); split; intro H;
    first [discriminate H | reflexivity | (intro H'; discriminate H')
          | (exfalso; apply H; reflexivity)].
Qed.

Lemma indexOf_In (x : string) (l : list string) :
  In x l -> exists i, indexOf x l = Some i.
Proof.
  induction l as [|y t IH]; cbn [In indexOf]; [contradiction|].
  intros [H | H].
  - subst y. rewrite String.eqb_refl. eexists. reflexivity.
  - destruct (String.eqb y x); [eexists; reflexivity|].
    destruct (IH H) as (i & ->). eexists. reflexivity.
Qed.

(** Inside the array, splicing at [indexOf] takes the first occurrence
    away. *)
Lemma spliceAtIndexOf_withoutFirst (x : string) (l : list string) :
  In x l -> spliceAtIndexOf x l = withoutFirst x l.
Proof.
  unfold spliceAtIndexOf.
  induction l as [|y t IH]; cbn [In indexOf withoutFirst]; [contradiction|].
  intro H. destruct (String.eqb y x) eqn:E; [reflexivity|].
  destruct H as [H | H]; [subst y; rewrite String.eqb_refl in E; discriminate E|].
  specialize (IH H). destruct (indexOf_In x t H) as (i & Hi).
  rewrite Hi in IH |- *. cbn [option_map splice1]. rewrite IH. reflexivity.
Qed.

Lemma In_withoutFirst (x u : string) (l : list string) :
  NoDup l -> (In u (withoutFirst x l) <-> In u l /\ u <> x).
Proof.
  induction 1 as [|y t Hy Hnd IH]; cbn [withoutFirst In]; [tauto|].
  destruct (String.eqb y x) eqn:E.
  - apply String.eqb_eq in E. subst y. split.
    + intro H. split; [right; exact H|]. intros ->. contradiction.
    + intros [[H | H] Hne]; [symmetry in H; contradiction | exact H].
  - apply String.eqb_neq in E. cbn [In]. rewrite IH. split.
    + intros [H | [H Hne]]; [subst u; split; [left; reflexivity | exact E]|].
      split; [right; exact H | exact Hne].
    + intros [[H | H] Hne]; [left; exact H | right; split; assumption].
Qed.

Lemma NoDup_withoutFirst (x : string) (l : list string) :
  NoDup l -> NoDup (withoutFirst x l).
Proof.
  induction 1 as [|y t Hy Hnd IH]; cbn [withoutFirst]; [constructor|].
  destruct (String.eqb y x); [exact Hnd|].
  constructor; [|exact IH].
  intro H. apply In_withoutFirst in H; [|exact Hnd]. destruct H as [H _].
  contradiction.
Qed.

Lemma NoDup_push (x : string) (l : list string) :
  NoDup l -> ~ In x l -> NoDup (l ++ [x]).
Proof.
  intros Hnd Hx. induction Hnd as [|y t Hy Hnd IH]; cbn [app].
  - constructor; [intros [] | constructor].
  - constructor.
    + rewrite in_app_iff. cbn [In]. intros [H | [H | []]]; [contradiction|].
      subst y. apply Hx. left. reflexivity.
    + apply IH. intro H. apply Hx. right. exact H.
Qed.

Lemma withoutFirst_push (x : string) (l : list string) :
  ~ In x l -> withoutFirst x (l ++ [x]) = l.
Proof.
  induction l as [|y t IH]; cbn [app withoutFirst In]; intro H.
  - rewrite String.eqb_refl. reflexivity.
  - destruct (String.eqb y x) eqn:E.
    + apply String.eqb_eq in E. exfalso. apply H. left. exact E.
    + rewrite IH; [reflexivity|]. intro H'. apply H. right. exact H'.
Qed.

Lemma bool_eq_of_iff (a b : bool) : (a = true <-> b = true) -> a = b.
Proof. destruct a, b; intros [H1 H2]; auto; symmetry; auto. Qed.

Lemma toggle_keeps_NoDup (approved : list string) (uri : string)
    (keys : list string) :
  NoDup keys -> NoDup (fst (toggleTokenList approved uri keys)).
Proof.
  intro Hnd. unfold toggleTokenList.
  destruct (includes approved uri); cbn [negb fst]; [|exact Hnd].
  destruct (includes keys uri) eqn:Hi.
  - apply includes_In in Hi.
    rewrite (spliceAtIndexOf_withoutFirst uri keys Hi).
    apply NoDup_withoutFirst. exact Hnd.
  - apply includes_false in Hi. apply NoDup_push; assumption.
Qed.

Lemma toggle_other (approved : list string) (uri u : string)
    (keys : list string) :
  NoDup keys -> u <> uri ->
  isActiveList (fst (toggleTokenList approved uri keys)) u
  = isActiveList keys u.
Proof.
  intros Hnd Hu. unfold toggleTokenList, isActiveList.
  destruct (includes approved uri); cbn [negb fst]; [|reflexivity].
  apply bool_eq_of_iff. rewrite !includes_In.
  destruct (includes keys uri) eqn:Hi.
  - apply includes_In in Hi.
    rewrite (spliceAtIndexOf_withoutFirst uri keys Hi).
    rewrite In_withoutFirst by exact Hnd. tauto.
  - rewrite in_app_iff. cbn [In]. split; [|tauto].
    intros [H | [H | []]]; [exact H | symmetry in H; contradiction].
Qed.

Lemma toggle_same (approved : list string) (uri : string)
    (keys : list string) :
  NoDup keys -> includes approved uri = true ->
  isActiveList (fst (toggleTokenList approved uri keys)) uri
  = negb (isActiveList keys uri).
Proof.
  intros Hnd Ha. unfold toggleTokenList, isActiveList.
  rewrite Ha. cbn [negb fst].
  destruct (includes keys uri) eqn:Hi; cbn [negb].
  - apply includes_In in Hi.
    rewrite (spliceAtIndexOf_withoutFirst uri keys Hi).
    apply includes_false. intro H.
    apply In_withoutFirst in H; [|exact Hnd]. destruct H as [_ H].
    apply H. reflexivity.
  - apply includes_In. rewrite in_app_iff. right. left. reflexivity.
Qed.

(** X20. [toggleTokenList] ignores a list that is not approved and
    flips an approved one.  For a uri outside [uris.Approved] the
    active keys are unchanged and nothing is stored.  For an approved
    uri, on keys without duplicates: the uri is active afterwards
    exactly when it was not before, every other uri is as active as it
    was, the keys still have no duplicates, and the array handed to
    local storage is the new one. *)
Theorem toggle_flips_approved (approved : list string) (uri : string)
    (activeListKeys : list string) :
  NoDup activeListKeys ->
  let after := fst (toggleTokenList approved uri activeListKeys) in
  let stored := snd (toggleTokenList approved uri activeListKeys) in
  NoDup after /\
  (includes approved uri = false ->
   after = activeListKeys /\ stored = None) /\
  (includes approved uri = true ->
   stored = Some after /\
   isActiveList after uri = negb (isActiveList activeListKeys uri) /\
   forall u, u <> uri ->
             isActiveList after u = isActiveList activeListKeys u).
Proof.
  intros Hnd after stored. subst after stored.
  split; [apply toggle_keeps_NoDup; exact Hnd|].
  split.
  - intro Ha. unfold toggleTokenList. rewrite Ha. split; reflexivity.
  - intro Ha. split.
    + unfold toggleTokenList. rewrite Ha. reflexivity.
    + split; [apply toggle_same; assumption|].
      intros u Hu. apply toggle_other; assumption.
Qed.

(** X21. After any sequence of toggles, starting from keys without
    duplicates, an approved list is active exactly when its state has
    been flipped an odd number of times, and the state of a list that
    is not approved never changes; the keys never hold a duplicate. *)
Theorem toggles_parity (approved uris activeListKeys : list string)
    (u : string) :
  NoDup activeListKeys ->
  NoDup (toggles approved uris activeListKeys) /\
  isActiveList (toggles approved uris activeListKeys) u
  = if includes approved u
    then xorb (isActiveList activeListKeys u)
           (Nat.odd (count_occ string_dec uris u))
    else isActiveList activeListKeys u.
Proof.
  revert activeListKeys.
  induction uris as [|a us IH]; intros keys Hnd; unfold toggles; cbn [fold_left].
  - split; [exact Hnd|]. cbn [count_occ Nat.odd].
    destruct (includes approved u), (isActiveList keys u); reflexivity.
  - pose proof (toggle_keeps_NoDup approved a keys Hnd) as Hnd'.
    destruct (IH _ Hnd') as [IH1 IH2]. unfold toggles in IH1, IH2.
    split; [exact IH1|]. rewrite IH2. cbn [count_occ].
    destruct (string_dec a u) as [-> | Hne].
    + destruct (includes approved u) eqn:Ha.
      * rewrite (toggle_same approved u keys Hnd Ha).
        rewrite Nat.odd_succ, <- Nat.negb_odd.
        destruct (isActiveList keys u), (Nat.odd (count_occ string_dec us u));
          reflexivity.
      * unfold toggleTokenList. rewrite Ha. reflexivity.
    + rewrite (toggle_other approved a u keys Hnd) by (intro H; apply Hne; symmetry; exact H).
      reflexivity.
Qed.

(** X22. Switching a list on and off again gives back the very array:
    for an approved uri that is not active, two toggles in a row leave
    the keys as they were, in the same order, and the second call
    stores that array. *)
Theorem toggle_twice_restores (approved : list string) (uri : string)
    (activeListKeys : list string) :
  includes approved uri = true ->
  isActiveList activeListKeys uri = false ->
  toggleTokenList approved uri
    (fst (toggleTokenList approved uri activeListKeys))
  = (activeListKeys, Some activeListKeys).
Proof.
  intros Ha Hi. unfold isActiveList in Hi.
  assert (Hin : includes (activeListKeys ++ [uri]) uri = true)
    by (apply includes_In; rewrite in_app_iff; right; left; reflexivity).
  assert (Hs : spliceAtIndexOf uri (activeListKeys ++ [uri]) = activeListKeys).
  { rewrite spliceAtIndexOf_withoutFirst
      by (rewrite in_app_iff; right; left; reflexivity).
    apply withoutFirst_push. apply includes_false. exact Hi. }
  unfold toggleTokenList. rewrite Ha, Hi. cbn [negb fst].
  rewrite Hin, Hs. reflexivity.
Qed.

End TokenListFacts.
